(** * str-template: the template compiler and its conditional combinator

    A shallow embedding of [src/index.js].  The library compiles a tagged
    template (literal fragments interleaved with items) into a function
    from a context to a string, with two interchangeable strategies:

    - the generated strategy builds the text of a host-language function
      and hands it to the host's [Function] constructor;
    - the fallback strategy folds over the fragments at render time.

    The file is organised as follows: the host values the code touches
    (module [Js]), the part of the host language needed to run the text
    the generated strategy emits (module [Host]), the two strategies of
    [bareTemplate], the [template] entry point with the [if] combinator
    (module [Template]), the vocabulary of the statements, and then the
    proofs.

    Modelling conventions.

    - Strings are sequences of 8-bit code units, standing for host strings
      whose code units are all below U+0100.
    - Numbers are the integers, standing for the host numbers of the same
      value, together with NaN and the two infinities.  The string form of
      an integer is its decimal expansion, which is what the host prints
      for the integers of magnitude at most 2^53 - 1; every statement
      about an integer key carries that bound.  Fractions are not
      represented.
    - An object that is an item, a property value or the result of a call
      is known by its string coercion only; a context object is known by
      the values its properties read as (inherited ones included).
    - Functions supplied by the caller are functions of the context that
      return a value or throw; they have no other effect.
    - Exceptions are results: a computation either returns, throws, or
      leaves the modelled part of the host language. *)

From Stdlib Require Import ZArith String Ascii List Decimal DecimalString.
From Stdlib Require Import DecimalFacts DecimalZ DecimalNat Lia.
From stdpp Require Import base gmap strings.
Import ListNotations.

Local Open Scope string_scope.
Local Open Scope list_scope.

(** ** Outcomes of host computations *)

(** Exceptions the code can raise or let through. *)
Inductive exn :=
| TypeError (message : string)   (* [throw TypeError(message)] in the library *)
| EngineTypeError                (* a TypeError raised by the host itself *)
| SyntaxError                    (* raised by the host's [Function] constructor *)
| UserError (tag : string).      (* anything thrown by a caller-supplied function *)

(** A computation returns, throws, or leaves the modelled part of the host
    language ([Unsupported]); no theorem draws a conclusion from the last. *)
Inductive outcome (A : Type) :=
| Ok (a : A)
| Throw (e : exn)
| Unsupported.
Arguments Ok {A} a.
Arguments Throw {A} e.
Arguments Unsupported {A}.

Definition bind {A B} (m : outcome A) (k : A -> outcome B) : outcome B :=
  match m with
  | Ok a => k a
  | Throw e => Throw e
  | Unsupported => Unsupported
  end.

Notation "'let!' x ':=' m 'in' k" := (bind m (fun x => k))
  (at level 10, x name, m at level 200, k at level 200).

(** ** Characters used by the code *)

Definition backtick : ascii := "`".
Definition dollar : ascii := "$".
Definition backslash : ascii := "\".
Definition dquote : ascii := "034".
Definition LF : ascii := "010".
Definition CR : ascii := "013".
Definition NUL : ascii := "000".

Module Js.

(** ** Host values *)

(** The numbers that are not finite. *)
Inductive nonfinite := NaN | PosInfinity | NegInfinity.

(** Primitive values that [Object] can box. *)
Inductive boxable :=
| BBool (b : bool)
| BNum (n : Z)
| BNonFinite (x : nonfinite)
| BStr (s : string).

(** Objects, as far as the code can observe them when they are items,
    property values or results of calls: only their string coercion is
    used.  [Box p] is [Object(p)]; [Opaque r] is any other object, with the
    outcome of coercing it to a string. *)
Inductive object :=
| Box (p : boxable)
| Opaque (coerce : outcome string).

(** Every value except functions. *)
Inductive value :=
| VUndefined
| VNull
| VBool (b : bool)
| VNum (n : Z)
| VNonFinite (x : nonfinite)
| VStr (s : string)
| VObj (o : object).

(** The context handed to an evaluator: any host value; for an object or an
    array, the map gives the result of reading each of its properties. *)
Inductive context :=
| CtxUndefined
| CtxNull
| CtxBool (b : bool)
| CtxNum (n : Z)
| CtxStr (s : string)
| CtxFunction
| CtxObject (props : gmap string value).

(** A function object: its identity, whether its prototype is
    [template.prototype], and what calling it with one argument does. *)
Record fobj := MkFn {
  fid : nat;
  is_template : bool;
  call : context -> outcome value
}.

(** Any host value: what an item, a delimiter or a receiver can be. *)
Inductive jsval :=
| JV (v : value)
| JF (f : fobj).

(** [typeof] *)
Definition typeof_value (v : value) : string :=
  match v with
  | VUndefined => "undefined"
  | VNull => "object"
  | VBool _ => "boolean"
  | VNum _ => "number"
  | VNonFinite _ => "number"
  | VStr _ => "string"
  | VObj _ => "object"
  end.

Definition typeof (j : jsval) : string :=
  match j with
  | JV v => typeof_value v
  | JF _ => "function"
  end.

Definition typeof_context (c : context) : string :=
  match c with
  | CtxUndefined => "undefined"
  | CtxNull => "object"
  | CtxBool _ => "boolean"
  | CtxNum _ => "number"
  | CtxStr _ => "string"
  | CtxFunction => "function"
  | CtxObject _ => "object"
  end.

(** [Number::toString] on integers: the decimal expansion.  This is what
    the host prints for the integers of magnitude at most [2^53 - 1];
    above, the host prints the shortest digits that read back as the same
    number, and they are not the digits of the integer. *)
Definition number_to_string (n : Z) : string :=
  NilZero.string_of_int (Z.to_int n).

(** [Number::toString] on the numbers that are not finite. *)
Definition nonfinite_to_string (x : nonfinite) : string :=
  match x with
  | NaN => "NaN"
  | PosInfinity => "Infinity"
  | NegInfinity => "-Infinity"
  end.

(** An array index printed inside a template literal, [`${index}`]. *)
Definition index_to_string (i : nat) : string :=
  NilZero.string_of_uint (Nat.to_uint i).

Definition boxable_to_string (p : boxable) : string :=
  match p with
  | BBool true => "true"
  | BBool false => "false"
  | BNum n => number_to_string n
  | BNonFinite x => nonfinite_to_string x
  | BStr s => s
  end.

(** [ToString] on values. *)
Definition to_string (v : value) : outcome string :=
  match v with
  | VUndefined => Ok "undefined"
  | VNull => Ok "null"
  | VBool b => Ok (boxable_to_string (BBool b))
  | VNum n => Ok (number_to_string n)
  | VNonFinite x => Ok (nonfinite_to_string x)
  | VStr s => Ok s
  | VObj (Box p) => Ok (boxable_to_string p)
  | VObj (Opaque r) => r
  end.

(** [ToString] on any host value.  The text a function prints as is left to
    the host. *)
Definition to_string_js (j : jsval) : outcome string :=
  match j with
  | JV v => to_string v
  | JF _ => Unsupported
  end.

(** [`${x ?? ""}`]: the empty string for [undefined] and [null], the
    string coercion otherwise. *)
Definition nullish (j : jsval) : bool :=
  match j with
  | JV VUndefined | JV VNull => true
  | _ => false
  end.

Definition interpolate (j : jsval) : outcome string :=
  if nullish j then Ok "" else to_string_js j.

(** [Object(v)] *)
Definition Object_ (v : value) : value :=
  match v with
  | VBool b => VObj (Box (BBool b))
  | VNum n => VObj (Box (BNum n))
  | VNonFinite x => VObj (Box (BNonFinite x))
  | VStr s => VObj (Box (BStr s))
  | VObj o => VObj o
  | VUndefined | VNull => VObj (Opaque (Ok "[object Object]"))
  end.

(** [ToBoolean] *)
Definition truthy (j : jsval) : bool :=
  match j with
  | JV VUndefined | JV VNull | JV (VBool false) => false
  | JV (VNum n) => negb (n =? 0)%Z
  | JV (VNonFinite NaN) => false
  | JV (VStr s) => negb (String.eqb s "")
  | _ => true
  end.

(** [array[index]]: [undefined] outside the array. *)
Definition at_index (a : list jsval) (i : nat) : jsval :=
  match a !! i with
  | Some j => j
  | None => JV VUndefined
  end.

(** [object[key]] on a context.  Reading a property of [null] or
    [undefined] is a TypeError of the host; a missing property reads as
    [undefined].  Properties of primitive and function contexts are not
    modelled: both strategies reject such contexts before reading. *)
Definition get (c : context) (key : string) : outcome value :=
  match c with
  | CtxObject props =>
      match props !! key with
      | Some v => Ok v
      | None => Ok VUndefined
      end
  | CtxNull | CtxUndefined => Throw EngineTypeError
  | _ => Unsupported
  end.

(** [ToPrimitive] with no hint: a boxed primitive unboxes; any other
    object is taken to have the ordinary [valueOf], so that its string
    coercion is what remains.  The text of a function is left to the
    host. *)
Definition to_primitive (j : jsval) : outcome value :=
  match j with
  | JV (VObj (Box (BBool b))) => Ok (VBool b)
  | JV (VObj (Box (BNum n))) => Ok (VNum n)
  | JV (VObj (Box (BNonFinite x))) => Ok (VNonFinite x)
  | JV (VObj (Box (BStr s))) => Ok (VStr s)
  | JV (VObj (Opaque r)) => let! s := r in Ok (VStr s)
  | JV v => Ok v
  | JF _ => Unsupported
  end.

(** [ToNumber] on primitives, where the result is an integer.  Arithmetic
    on NaN and on the infinities, and the conversion of [undefined] and of
    strings, are left to the host. *)
Definition to_number (v : value) : outcome Z :=
  match v with
  | VNum n => Ok n
  | VBool true => Ok 1%Z
  | VBool false => Ok 0%Z
  | VNull => Ok 0%Z
  | _ => Unsupported
  end.

Definition is_string (v : value) : bool :=
  match v with VStr _ => true | _ => false end.

(** The [+] operator. *)
Definition add (x y : jsval) : outcome value :=
  let! px := to_primitive x in
  let! py := to_primitive y in
  if is_string px || is_string py then
    let! sx := to_string px in
    let! sy := to_string py in
    Ok (VStr (sx +:+ sy))
  else
    let! nx := to_number px in
    let! ny := to_number py in
    Ok (VNum (nx + ny)).

End Js.
Import Js.

(** ** The host language, as far as the generated strategy needs it

    The generated strategy hands program text to the host's [Function]
    constructor.  This module reads and runs the programs of the following
    shape, with the host's meaning for each construct:

<<
    body    ::= "return " arrows [ "//" characters-to-the-end ]
    arrows  ::= arrow | arrow "," arrows          (comma operator)
    arrow   ::= "b=>" string-literal
              | "b=>{let c;if(typeof b!=" string-literal ")throw TypeError("
                  string-literal ");return" template-literal "}"
    subst   ::= "a[" index "]" | "c=a[" index "],c(b)"
              | "b." identifier | "b[" string-literal "]" | "b[" integer "]"
              | "b[null]"
>>
    each substitution being followed by [??""].  String and template
    literals are lexed with the host's escape sequences and line
    terminator rules.  Text outside this shape is [Unsupported], except
    where it is certainly a syntax error. *)
Module Host.

(** *** Characters *)

Definition is_digit (c : ascii) : bool :=
  ((48 <=? N_of_ascii c) && (N_of_ascii c <=? 57))%N.

Definition hex_digit (c : ascii) : option N :=
  let n := N_of_ascii c in
  if ((48 <=? n) && (n <=? 57))%N then Some (n - 48)%N
  else if ((97 <=? n) && (n <=? 102))%N then Some (n - 87)%N
  else if ((65 <=? n) && (n <=? 70))%N then Some (n - 55)%N
  else None.

(** The Unicode properties ID_Start and ID_Continue on U+0000..U+00FF. *)
Definition ID_Start (c : ascii) : bool :=
  let n := N_of_ascii c in
  (((65 <=? n) && (n <=? 90)) || ((97 <=? n) && (n <=? 122))
   || (n =? 170) || (n =? 181) || (n =? 186)
   || ((192 <=? n) && (n <=? 214)) || ((216 <=? n) && (n <=? 246))
   || (248 <=? n))%N.

Definition ID_Continue (c : ascii) : bool :=
  let n := N_of_ascii c in
  (ID_Start c || ((48 <=? n) && (n <=? 57)) || (n =? 95) || (n =? 183))%N.

(** IdentifierStart and IdentifierPart of the host grammar. *)
Definition identifier_start (c : ascii) : bool :=
  ID_Start c || Ascii.eqb c "$" || Ascii.eqb c "_".

Definition identifier_part (c : ascii) : bool :=
  ID_Continue c || Ascii.eqb c "$".

(** The character an escape letter stands for (SingleEscapeCharacter). *)
Definition single_escape (c : ascii) : option ascii :=
  if Ascii.eqb c "n" then Some LF
  else if Ascii.eqb c "r" then Some CR
  else if Ascii.eqb c "t" then Some "009"%char
  else if Ascii.eqb c "b" then Some "008"%char
  else if Ascii.eqb c "f" then Some "012"%char
  else if Ascii.eqb c "v" then Some "011"%char
  else None.

(** *** String helpers *)

Fixpoint strip_prefix (p s : string) : option string :=
  match p with
  | "" => Some s
  | String a p' =>
      match s with
      | String b s' => if Ascii.eqb a b then strip_prefix p' s' else None
      | "" => None
      end
  end.

(** The longest prefix of characters satisfying [keep], and what follows. *)
Fixpoint span (keep : ascii -> bool) (s : string) : string * string :=
  match s with
  | "" => ("", "")
  | String c s' =>
      if keep c then let (t, r) := span keep s' in (String c t, r)
      else ("", s)
  end.

Fixpoint string_forallb (p : ascii -> bool) (s : string) : bool :=
  match s with
  | "" => true
  | String c s' => p c && string_forallb p s'
  end.

(** *** Lexing string and template literals *)

Inductive mode := InTemplate | InString.

(** The cooked characters up to the end of the literal ([LexEnd]) or, in a
    template, up to the next [${] ([LexSubst]), with the text that
    follows. *)
Inductive lexed :=
| LexEnd (cooked rest : string)
| LexSubst (cooked rest : string)
| LexSyntaxError
| LexUnsupported.

Definition push (c : ascii) (l : lexed) : lexed :=
  match l with
  | LexEnd s r => LexEnd (String c s) r
  | LexSubst s r => LexSubst (String c s) r
  | LexSyntaxError => LexSyntaxError
  | LexUnsupported => LexUnsupported
  end.

Definition terminator (m : mode) (c : ascii) : bool :=
  match m with
  | InTemplate => Ascii.eqb c backtick
  | InString => Ascii.eqb c dquote
  end.

(** [\xHH] *)
Definition hex2 (h1 h2 : ascii) : option ascii :=
  match hex_digit h1, hex_digit h2 with
  | Some a, Some b => Some (ascii_of_N (16 * a + b))
  | _, _ => None
  end.

(** [\uHHHH]: the code unit, when it is one of the 8-bit ones. *)
Definition hex4 (h1 h2 h3 h4 : ascii) : option (option ascii) :=
  match hex_digit h1, hex_digit h2, hex_digit h3, hex_digit h4 with
  | Some a, Some b, Some c, Some d =>
      if ((a =? 0) && (b =? 0))%N then Some (Some (ascii_of_N (16 * c + d)))
      else Some None
  | _, _, _, _ => None
  end.

Fixpoint lex_chars (m : mode) (s : string) : lexed :=
  match s with
  | "" => LexSyntaxError
  | String c s1 =>
    if terminator m c then LexEnd "" s1
    else if Ascii.eqb c backslash then
      match s1 with
      | "" => LexSyntaxError
      | String e s2 =>
        match single_escape e with
        | Some ch => push ch (lex_chars m s2)
        | None =>
          if Ascii.eqb e "x" then
            match s2 with
            | String h1 (String h2 s4) =>
                match hex2 h1 h2 with
                | Some ch => push ch (lex_chars m s4)
                | None => LexSyntaxError
                end
            | _ => LexSyntaxError
            end
          else if Ascii.eqb e "u" then
            match s2 with
            | String h1 s3 =>
                if Ascii.eqb h1 "{" then LexUnsupported
                else
                  match s3 with
                  | String h2 (String h3 (String h4 s6)) =>
                      match hex4 h1 h2 h3 h4 with
                      | Some (Some ch) => push ch (lex_chars m s6)
                      | Some None => LexUnsupported
                      | None => LexSyntaxError
                      end
                  | _ => LexSyntaxError
                  end
            | "" => LexSyntaxError
            end
          else if is_digit e then
            (* [\0] alone is NUL; other digit escapes are errors in a
               template and legacy octal escapes in a string *)
            let legacy :=
              match m with
              | InTemplate => LexSyntaxError
              | InString => LexUnsupported
              end in
            if Ascii.eqb e "0" then
              match s2 with
              | String d _ =>
                  if is_digit d then legacy else push NUL (lex_chars m s2)
              | "" => push NUL (lex_chars m s2)
              end
            else legacy
          else if Ascii.eqb e LF then lex_chars m s2
          else if Ascii.eqb e CR then
            match s2 with
            | String l s3 =>
                if Ascii.eqb l LF then lex_chars m s3 else lex_chars m s2
            | "" => lex_chars m s2
            end
          else push e (lex_chars m s2)
        end
      end
    else
      match m with
      | InTemplate =>
          if Ascii.eqb c dollar then
            match s1 with
            | String b s2 =>
                if Ascii.eqb b "{" then LexSubst "" s2
                else push c (lex_chars m s1)
            | "" => push c (lex_chars m s1)
            end
          else if Ascii.eqb c CR then
            match s1 with
            | String l s2 =>
                if Ascii.eqb l LF then push LF (lex_chars m s2)
                else push LF (lex_chars m s1)
            | "" => push LF (lex_chars m s1)
            end
          else push c (lex_chars m s1)
      | InString =>
          if Ascii.eqb c LF || Ascii.eqb c CR then LexSyntaxError
          else push c (lex_chars m s1)
      end
  end.

(** A double-quoted string literal, after its opening quote. *)
Definition lex_string (s : string) : outcome (string * string) :=
  match lex_chars InString s with
  | LexEnd cooked rest => Ok (cooked, rest)
  | LexSyntaxError => Throw SyntaxError
  | _ => Unsupported
  end.

(** *** Substitutions *)

(** The expressions the generated strategy places between [${] and [}]:
    [a[i]], [c=a[i],c(b)], and a property of [b]. *)
Inductive expr :=
| EItem (i : nat)
| ECall (i : nat)
| EProp (key : string).

Inductive part :=
| Text (s : string)
| Subst (e : expr).

(** [??""}] *)
Definition or_empty_close : string :=
  "??" +:+ String dquote (String dquote "}").

(** A decimal array index without leading zeros. *)
Definition parse_index (t : string) : option nat :=
  match NilZero.uint_of_string t with
  | Some d =>
      let i := Nat.of_uint d in
      if String.eqb (index_to_string i) t then Some i else None
  | None => None
  end.

Definition MAX_SAFE_INTEGER : Z := 2 ^ 53 - 1.

(** The property key an integer literal (possibly negated) denotes: its own
    text, for a literal in canonical form and in the range where every
    integer is a host number. *)
Definition parse_integer_key (t : string) : option string :=
  match NilZero.int_of_string t with
  | Some d =>
      let n := Z.of_int d in
      if String.eqb (number_to_string n) t
         && (Z.abs n <=? MAX_SAFE_INTEGER)%Z
      then Some t else None
  | None => None
  end.

(** The property key a literal between brackets denotes: [null] is read
    as the key ["null"], an integer literal as its own text. *)
Definition parse_key_literal (t : string) : option string :=
  if String.eqb t "null" then Some "null" else parse_integer_key t.

Definition not_bracket (c : ascii) : bool := negb (Ascii.eqb c "]").

Definition parse_substitution (s : string) : outcome (expr * string) :=
  match strip_prefix "a[" s with
  | Some r =>
      let (t, r1) := span not_bracket r in
      match parse_index t, strip_prefix ("]" +:+ or_empty_close) r1 with
      | Some i, Some r2 => Ok (EItem i, r2)
      | _, _ => Unsupported
      end
  | None =>
  match strip_prefix "c=a[" s with
  | Some r =>
      let (t, r1) := span not_bracket r in
      match parse_index t,
            strip_prefix ("],c(b)" +:+ or_empty_close) r1 with
      | Some i, Some r2 => Ok (ECall i, r2)
      | _, _ => Unsupported
      end
  | None =>
  match strip_prefix "b." s with
  | Some r =>
      let (name, r1) := span identifier_part r in
      match name with
      | String c _ =>
          if identifier_start c then
            match strip_prefix or_empty_close r1 with
            | Some r2 => Ok (EProp name, r2)
            | None => Unsupported
            end
          else Unsupported
      | "" => Unsupported
      end
  | None =>
  match strip_prefix "b[" s with
  | Some (String c r1 as r) =>
      if Ascii.eqb c dquote then
        let! lit := lex_string r1 in
        match strip_prefix ("]" +:+ or_empty_close) (snd lit) with
        | Some r2 => Ok (EProp (fst lit), r2)
        | None => Unsupported
        end
      else
        let (t, r2) := span not_bracket r in
        match parse_key_literal t,
              strip_prefix ("]" +:+ or_empty_close) r2 with
        | Some key, Some r3 => Ok (EProp key, r3)
        | _, _ => Unsupported
        end
  | _ => Unsupported
  end end end end.

(** *** Template literals *)

(** A template literal after its opening backtick: its cooked text parts
    and substitutions in order, and the text after the closing backtick.
    [fuel] bounds the number of substitutions. *)
Fixpoint parse_template (fuel : nat) (s : string)
  : outcome (list part * string) :=
  match lex_chars InTemplate s with
  | LexEnd cooked rest => Ok ([Text cooked], rest)
  | LexSubst cooked rest =>
      match fuel with
      | O => Unsupported
      | S fuel' =>
          let! sub := parse_substitution rest in
          let! more := parse_template fuel' (snd sub) in
          Ok (Text cooked :: Subst (fst sub) :: fst more, snd more)
      end
  | LexSyntaxError => Throw SyntaxError
  | LexUnsupported => Unsupported
  end.

(** *** Arrow functions and function bodies *)

Inductive arrow :=
| Constant (s : string)
    (* [b=>"s"] *)
| Guarded (type message : string) (t : list part).
    (* [b=>{let c;if(typeof b!="type")throw TypeError("message");return`t`}] *)

Definition expect {A} (p s : string) (k : string -> outcome A) : outcome A :=
  match strip_prefix p s with
  | Some r => k r
  | None => Unsupported
  end.

Definition parse_arrow (fuel : nat) (s : string) : outcome (arrow * string) :=
  expect "b=>" s (fun r =>
  match r with
  | String c r1 =>
      if Ascii.eqb c dquote then
        let! lit := lex_string r1 in
        Ok (Constant (fst lit), snd lit)
      else
        expect ("{let c;if(typeof b!=" +:+ String dquote "") r (fun r2 =>
        let! type := lex_string r2 in
        expect (")throw TypeError(" +:+ String dquote "") (snd type) (fun r3 =>
        let! message := lex_string r3 in
        expect (");return" +:+ String backtick "") (snd message) (fun r4 =>
        let! t := parse_template fuel r4 in
        expect "}" (snd t) (fun r5 =>
        Ok (Guarded (fst type) (fst message) (fst t), r5)))))
  | "" => Unsupported
  end).

(** A comma-separated sequence of arrow functions; its value is the last. *)
Fixpoint parse_arrows (fuel : nat) (s : string) : outcome (arrow * string) :=
  let! f := parse_arrow fuel s in
  match snd f with
  | String c r =>
      if Ascii.eqb c "," then
        match fuel with
        | O => Unsupported
        | S fuel' => parse_arrows fuel' r
        end
      else Ok f
  | "" => Ok f
  end.

Definition no_line_terminator (c : ascii) : bool :=
  negb (Ascii.eqb c LF || Ascii.eqb c CR).

(** What may follow the returned expression: nothing, or a line comment
    running to the end of the text. *)
Definition trailer (s : string) : bool :=
  match s with
  | "" => true
  | _ =>
      match strip_prefix "//" s with
      | Some comment => string_forallb no_line_terminator comment
      | None => false
      end
  end.

Definition parse_body (s : string) : outcome arrow :=
  expect "return " s (fun r =>
  let! f := parse_arrows (String.length s) r in
  if trailer (snd f) then Ok (fst f) else Unsupported).

(** *** Running *)

(** The value of a substitution followed by [??""], coerced to a string;
    [a] is the items array and [b] the context. *)
Definition eval_subst (a : list jsval) (b : context) (e : expr)
  : outcome string :=
  match e with
  | EItem i => interpolate (at_index a i)
  | ECall i =>
      match at_index a i with
      | JF c => let! v := call c b in interpolate (JV v)
      | JV _ => Throw EngineTypeError
      end
  | EProp key => let! v := get b key in interpolate (JV v)
  end.

(** A template literal: parts are evaluated and concatenated from left to
    right. *)
Fixpoint render (a : list jsval) (b : context) (t : list part)
  : outcome string :=
  match t with
  | [] => Ok ""
  | Text s :: t' => let! rest := render a b t' in Ok (s +:+ rest)
  | Subst e :: t' =>
      let! x := eval_subst a b e in
      let! rest := render a b t' in
      Ok (x +:+ rest)
  end.

Definition run_arrow (a : list jsval) (f : arrow) (b : context)
  : outcome string :=
  match f with
  | Constant s => Ok s
  | Guarded type message t =>
      if String.eqb (typeof_context b) type then render a b t
      else Throw (TypeError message)
  end.

(** [Function('a', body)]: the function of [a] whose body is [body].  Here
    it returns, applied to the items, the evaluator the body builds. *)
Definition Function_ (body : string)
  : outcome (list jsval -> context -> outcome string) :=
  let! f := parse_body body in
  Ok (fun a => run_arrow a f).

(** *** Host library functions the code calls *)

Definition hex_char (n : N) : ascii :=
  if (n <? 10)%N then ascii_of_N (48 + n) else ascii_of_N (87 + n).

(** QuoteJSONString, one code unit. *)
Definition json_quote_char (c : ascii) : string :=
  if Ascii.eqb c dquote then String backslash (String dquote "")
  else if Ascii.eqb c backslash then String backslash (String backslash "")
  else if Ascii.eqb c "008" then "\b"
  else if Ascii.eqb c "012" then "\f"
  else if Ascii.eqb c LF then "\n"
  else if Ascii.eqb c CR then "\r"
  else if Ascii.eqb c "009" then "\t"
  else if (N_of_ascii c <? 32)%N then
    "\u00" +:+ String (hex_char (N_of_ascii c / 16))
                 (String (hex_char (N_of_ascii c mod 16)) "")
  else String c "".

Fixpoint json_quote_chars (s : string) : string :=
  match s with
  | "" => ""
  | String c s' => json_quote_char c +:+ json_quote_chars s'
  end.

(** [JSON.stringify] on primitives; a number that is not finite is
    serialised as [null].  On [undefined] it returns no string, and objects
    would need their properties: neither reaches it here. *)
Definition JSON_stringify (j : jsval) : outcome string :=
  match j with
  | JV (VStr s) => Ok (String dquote (json_quote_chars s +:+ String dquote ""))
  | JV (VNum n) => Ok (number_to_string n)
  | JV (VNonFinite _) => Ok "null"
  | JV (VBool b) => Ok (boxable_to_string (BBool b))
  | JV VNull => Ok "null"
  | _ => Unsupported
  end.

End Host.
Import Host.

(** ** The compiler: [bareTemplate] *)

Definition errMsg : string := "insert must be an object.".

(** [Array.prototype.reduce] with an initial value; the callback receives
    the accumulator, the element and its index, and may throw. *)
Fixpoint reduce_from {A B} (f : B -> A -> nat -> outcome B)
    (l : list A) (index : nat) (acc : B) : outcome B :=
  match l with
  | [] => Ok acc
  | x :: l' =>
      let! acc' := f acc x index in
      reduce_from f l' (S index) acc'
  end.

Definition reduce {A B} (f : B -> A -> nat -> outcome B) (l : list A)
    (init : B) : outcome B :=
  reduce_from f l 0 init.

(** [index !== template.length - 1] *)
Definition not_last (index length : nat) : bool :=
  negb (Z.of_nat index =? Z.of_nat length - 1)%Z.

(** *** The generated strategy *)

(** [string.replace(escapeCharactersRegExp, '\\$1')] where
    [escapeCharactersRegExp] is [/(`|\$)/g]. *)
Fixpoint escapeCharactersRegExp_replace (s : string) : string :=
  match s with
  | "" => ""
  | String c s' =>
      if Ascii.eqb c backtick || Ascii.eqb c dollar
      then String backslash (String c (escapeCharactersRegExp_replace s'))
      else String c (escapeCharactersRegExp_replace s')
  end.

(** [identifierRegExp.test(s)] where [identifierRegExp] is
    [/^[\p{IDS}$_][\p{IDC}$_]*$/u]. *)
Definition identifierRegExp_first (c : ascii) : bool :=
  ID_Start c || Ascii.eqb c "$" || Ascii.eqb c "_".

Definition identifierRegExp_next (c : ascii) : bool :=
  ID_Continue c || Ascii.eqb c "$" || Ascii.eqb c "_".

Definition identifierRegExp_test (s : string) : bool :=
  match s with
  | "" => false
  | String c s' =>
      identifierRegExp_first c && string_forallb identifierRegExp_next s'
  end.

(** The expression that reads item number [index] at render time. *)
Definition access (index : nat) (item : jsval) : outcome string :=
  let type := typeof item in
  if String.eqb type "object" && truthy item then
    Ok ("a[" +:+ index_to_string index +:+ "]")
  else if String.eqb type "function" then
    Ok ("c=a[" +:+ index_to_string index +:+ "],c(b)")
  else
    let! name := to_string_js item in
    if identifierRegExp_test name then Ok ("b." +:+ name)
    else
      let! json := JSON_stringify item in
      Ok ("b[" +:+ json +:+ "]").

(** The callback of [template.reduce] in the generated strategy. *)
Definition generated_step (template : list string) (items : list jsval)
    (body str : string) (index : nat) : outcome string :=
  let body := body +:+ escapeCharactersRegExp_replace str in
  if not_last index (length template) then
    let item := at_index items index in
    if negb (nullish item) then
      let! e := access index item in
      Ok (body +:+ "${" +:+ e +:+ or_empty_close)
    else Ok body
  else Ok body.

(** ['return b=>{let c;if(typeof b!="object")throw TypeError("' + errMsg +
    '");return`'] *)
Definition generated_prelude : string :=
  "return b=>{let c;if(typeof b!=" +:+ String dquote "object"
  +:+ String dquote ")throw TypeError(" +:+ String dquote errMsg
  +:+ String dquote ");return" +:+ String backtick "".

Definition generated_body (template : list string) (items : list jsval)
  : outcome string :=
  let! body := reduce (generated_step template items) template
                 generated_prelude in
  Ok (body +:+ String backtick "}").

Definition bareTemplate_generated (template : list string)
    (items : list jsval) : outcome (context -> outcome string) :=
  let! body := generated_body template items in
  let! f := Function_ body in
  Ok (f items).

(** *** The fallback strategy *)

(** [item(insert)] *)
Definition call_js (f : jsval) (arg : context) : outcome value :=
  match f with
  | JF c => call c arg
  | JV _ => Throw EngineTypeError
  end.

(** [insert[item]] *)
Definition get_js (insert : context) (item : jsval) : outcome value :=
  let! key := to_string_js item in
  get insert key.

(** The callback of [template.reduce] in the fallback strategy. *)
Definition fallback_step (template : list string) (items : list jsval)
    (insert : context) (result str : string) (index : nat)
  : outcome string :=
  let result := result +:+ str in
  if not_last index (length template) then
    let item := at_index items index in
    let type := typeof item in
    if negb (nullish item) then
      let! v :=
        if String.eqb type "object" then Ok item
        else if String.eqb type "function" then
          let! r := call_js item insert in Ok (JV r)
        else
          let! r := get_js insert item in Ok (JV r) in
      let! s := interpolate v in
      Ok (result +:+ s)
    else Ok result
  else Ok result.

Definition fallback_evaluator (template : list string) (items : list jsval)
    (insert : context) : outcome string :=
  if negb (String.eqb (typeof_context insert) "object") then
    Throw (TypeError errMsg)
  else reduce (fallback_step template items insert) template "".

Definition bareTemplate_fallback (template : list string)
    (items : list jsval) : outcome (context -> outcome string) :=
  Ok (fallback_evaluator template items).

(** *** Strategy selection *)

Inductive strategy := Generated | Fallback.

(** The probe at module initialisation: the fallback is installed when
    calling [Function()] raises an [EvalError]. *)
Definition select_strategy (function_allowed : bool) : strategy :=
  if function_allowed then Generated else Fallback.

Definition bareTemplate (s : strategy) (template : list string)
    (items : list jsval) : outcome (context -> outcome string) :=
  match s with
  | Generated => bareTemplate_generated template items
  | Fallback => bareTemplate_fallback template items
  end.

(** Compiling and rendering in one step. *)
Definition render_with (s : strategy) (template : list string)
    (items : list jsval) (insert : context) : outcome string :=
  let! evaluator := bareTemplate s template items in
  evaluator insert.

(** ** Templates and the [if] combinator *)
Module Template.

(** What the calls below can change: the supply of function identities, and
    the record of the calls made to the compiler, kept to observe when it
    is invoked. *)
Record heap := MkHeap {
  next_fid : nat;
  compiled : list (list string * list jsval)
}.

(** Computations over the heap that may throw. *)
Definition M (A : Type) : Type := heap -> outcome A * heap.

Definition ret {A} (a : A) : M A := fun h => (Ok a, h).

Definition throw {A} (e : exn) : M A := fun h => (Throw e, h).

Definition lift {A} (o : outcome A) : M A := fun h => (o, h).

Definition mbind {A B} (m : M A) (k : A -> M B) : M B :=
  fun h =>
    match m h with
    | (Ok a, h') => k a h'
    | (Throw e, h') => (Throw e, h')
    | (Unsupported, h') => (Unsupported, h')
    end.

Notation "'do!' x ':=' m 'in' k" := (mbind m (fun x => k))
  (at level 10, x name, m at level 200, k at level 200).

(** A fresh function object with the given behaviour. *)
Definition new_function (behaviour : context -> outcome value) : M fobj :=
  fun h =>
    (Ok (MkFn (next_fid h) false behaviour),
     MkHeap (S (next_fid h)) (compiled h)).

Definition record_compile (template : list string) (items : list jsval)
  : M unit :=
  fun h => (Ok tt, MkHeap (next_fid h) (compiled h ++ [(template, items)])).

(** A call [bareTemplate(template, ...items)]: the compiler runs, and its
    evaluator is a new function object. *)
Definition bareTemplate_call (s : strategy) (template : list string)
    (items : list jsval) : M fobj :=
  do! _ := record_compile template items in
  do! evaluator := lift (bareTemplate s template items) in
  new_function (fun insert => let! r := evaluator insert in Ok (VStr r)).

(** [Object.setPrototypeOf(f, template.prototype)]: the same object, now a
    Template. *)
Definition setPrototypeOf_template (f : fobj) : fobj :=
  MkFn (fid f) true (call f).

(** [template(strings, ...items)]; [new_target] tells a call with [new]. *)
Definition template (s : strategy) (new_target : bool)
    (strings : list string) (items : list jsval) : M fobj :=
  if new_target then throw (TypeError "Illegal constructor.")
  else
    do! f := bareTemplate_call s strings items in
    ret (setPrototypeOf_template f).

(** What [if] returns: a Template, or the tag function awaiting a template
    literal. *)
Inductive if_result :=
| Chained (t : fobj)
| Tag (tag : list string -> list jsval -> M fobj).

(** [reduce] inside [if]:
    [nextReducer => cond ? Object.setPrototypeOf(insert => this(insert) +
    delimiter + nextReducer(insert), template.prototype) : this] *)
Definition if_reduce (this : fobj) (cond delimiter nextReducer : jsval)
  : M fobj :=
  if truthy cond then
    do! f := new_function (fun insert =>
               let! x := call this insert in
               let! xd := add (JV x) delimiter in
               let! y := call_js nextReducer insert in
               add (JV xd) (JV y)) in
    ret (setPrototypeOf_template f)
  else ret this.

(** [this.if(cond, delimiter, callback)]; an omitted argument is
    [undefined]. *)
Definition if_ (s : strategy) (this cond delimiter callback : jsval)
  : M if_result :=
  match this with
  | JV _ => throw (TypeError "this must be callable.")
  | JF self =>
      let delimiter :=
        match delimiter with
        | JV VUndefined => JV (VStr " ")
        | _ => delimiter
        end in
      let is_function := String.eqb (typeof delimiter) "function" in
      let callback := if is_function then delimiter else callback in
      let delimiter := if is_function then JV (VStr " ") else delimiter in
      if String.eqb (typeof callback) "function" then
        do! t := if_reduce self cond delimiter callback in
        ret (Chained t)
      else
        ret (Tag (fun template items =>
          do! next := bareTemplate_call s template items in
          if_reduce self cond delimiter (JF next)))
  end.

(** Running a computation from an empty heap. *)
Definition empty_heap : heap := MkHeap 0 [].

End Template.

(** ** Vocabulary of the statements and proofs *)

#[local] Arguments String.append !s1 s2 : simpl nomatch.

Import Template.

Definition TAB : ascii := "009".

(** An object every property of which reads as [undefined], such as
    [Object.create(null)]; [{}] reads the same under every key that
    [Object.prototype] does not define. *)
Definition empty_object : context := CtxObject ∅.

(** Characters a template literal hands over unchanged once the delimiter
    and the substitution introducer are escaped. *)
Definition is_plain (c : ascii) : bool :=
  negb (Ascii.eqb c backtick) && negb (Ascii.eqb c backslash)
  && negb (Ascii.eqb c dollar) && negb (Ascii.eqb c CR).

(** Fragments without a backslash and without a carriage return. *)
Definition benign_char (c : ascii) : bool :=
  negb (Ascii.eqb c backslash) && negb (Ascii.eqb c CR).

Definition benign (f : string) : bool := string_forallb benign_char f.

(** What each strategy asks of a fragment in the statements below. *)
Definition fragment_ok (s : strategy) (f : string) : Prop :=
  match s with
  | Generated => benign f = true
  | Fallback => True
  end.

(** Integers that are host numbers and print as their decimal digits. *)
Definition safe_integer (n : Z) : Prop := (Z.abs n <= MAX_SAFE_INTEGER)%Z.

(** The items for which the generated strategy writes an access that
    reads the key the fallback strategy reads: among the numbers, the
    integers above, NaN and Infinity, but not [-Infinity], which is
    written as [null]. *)
Definition safe_item (item : jsval) : Prop :=
  match item with
  | JV (VNum n) => safe_integer n
  | JV (VNonFinite NegInfinity) => False
  | _ => True
  end.

(** What each strategy asks of an item in the statements below. *)
Definition item_ok (s : strategy) (item : jsval) : Prop :=
  match s with
  | Generated => safe_item item
  | Fallback => True
  end.

Definition digit_or_minus (c : ascii) : bool :=
  is_digit c || Ascii.eqb c "-".

(** Prepending cooked text to what the lexer returned. *)
Definition pushes (t : string) (l : lexed) : lexed :=
  match l with
  | LexEnd c r => LexEnd (t +:+ c) r
  | LexSubst c r => LexSubst (t +:+ c) r
  | LexSyntaxError => LexSyntaxError
  | LexUnsupported => LexUnsupported
  end.

(** Prepending literal text to a parsed template. *)
Definition prepend (f : string) (o : outcome (list part * string))
  : outcome (list part * string) :=
  match o with
  | Ok (Text c :: ps, r) => Ok (Text (f +:+ c) :: ps, r)
  | other => other
  end.

(** What the fallback strategy inserts for a non-nullish item. *)
Definition contribution (item : jsval) (insert : context) : outcome string :=
  let type := typeof item in
  let! v :=
    if String.eqb type "object" then Ok item
    else if String.eqb type "function" then
      let! r := call_js item insert in Ok (JV r)
    else
      let! r := get_js insert item in Ok (JV r) in
  interpolate v.

(** The text the generated strategy appends for the fragments [l], the
    first of which has index [index], and the string the fallback strategy
    appends for them. *)
Fixpoint generated_text (template : list string) (items : list jsval)
    (l : list string) (index : nat) : outcome string :=
  match l with
  | [] => Ok ""
  | f :: l' =>
      let! seg := generated_step template items "" f index in
      let! rest := generated_text template items l' (S index) in
      Ok (seg +:+ rest)
  end.

Fixpoint fallback_text (template : list string) (items : list jsval)
    (insert : context) (l : list string) (index : nat) : outcome string :=
  match l with
  | [] => Ok ""
  | f :: l' =>
      let! seg := fallback_step template items insert "" f index in
      let! rest := fallback_text template items insert l' (S index) in
      Ok (seg +:+ rest)
  end.

(** The part of the prelude after ["return "]. *)
Definition guard_text : string :=
  "b=>{let c;if(typeof b!=" +:+ String dquote "object"
  +:+ String dquote ")throw TypeError(" +:+ String dquote errMsg
  +:+ String dquote ");return" +:+ String backtick "".

(** Reading a property of an object: [undefined] when it is missing. *)
Definition lookup (props : gmap string value) (key : string) : value :=
  match props !! key with
  | Some v => v
  | None => VUndefined
  end.

(** What a key contributes when its lookup gave [v]: nothing for
    [undefined] and [null], the string coercion otherwise. *)
Definition key_substitution (v : value) : outcome string :=
  match v with
  | VUndefined | VNull => Ok ""
  | _ => to_string v
  end.

(** [T(x) + d + C(x)] as the host evaluates it, left to right. *)
Definition chained (T C : fobj) (d : string) (x : context) : outcome value :=
  let! a := call T x in
  let! ad := add (JV a) (JV (VStr d)) in
  let! b := call C x in
  add (JV ad) (JV b).

(** A function that throws whenever it is called, and one that returns a
    fixed string. *)
Definition thrower (id : nat) : fobj :=
  MkFn id false (fun _ => Throw (UserError "continuation called")).

Definition constantly (id : nat) (s : string) : fobj :=
  MkFn id false (fun _ => Ok (VStr s)).

(** [['\\`},b=>"x"//']]: a backslash, a backtick, and text that the host
    reads as code once the template literal has ended. *)
Definition injection : string :=
  String backslash (String backtick
    ("},b=>" +:+ String dquote ("x" +:+ String dquote "//"))).

Fixpoint concat_all (l : list string) : string :=
  match l with
  | [] => ""
  | f :: l' => f +:+ concat_all l'
  end.

(** The text the lexer leaves over is shorter than [n]: by one character
    at the end of a literal, by two at a substitution. *)
Definition leaves (l : lexed) (n : nat) : Prop :=
  match l with
  | LexEnd _ r => S (String.length r) <= n
  | LexSubst _ r => S (S (String.length r)) <= n
  | _ => True
  end.

(** What the item at one position inserts: nothing when it is [undefined]
    (or missing) or [null], its contribution otherwise. *)
Definition insertion (item : jsval) (insert : context) : outcome string :=
  if nullish item then Ok "" else contribution item insert.

(** Fragments and items taken in turn, without indices: a fragment, what
    the next item inserts, and so on up to the last fragment; the items
    left over are not looked at, and a missing item is [undefined]. *)
Fixpoint interleave (insert : context) (fragments : list string)
    (items : list jsval) : outcome string :=
  match fragments with
  | [] => Ok ""
  | f :: rest =>
      match rest with
      | [] => Ok f
      | _ :: _ =>
          let! x := insertion (at_index items 0) insert in
          let! r := interleave insert rest (drop 1 items) in
          Ok (f +:+ x +:+ r)
      end
  end.

(** What an evaluator does on a context: the check, then the fragments and
    the items in turn. *)
Definition evaluation (template : list string) (items : list jsval)
    (insert : context) : outcome string :=
  if String.eqb (typeof_context insert) "object"
  then interleave insert template items
  else Throw (TypeError errMsg).






(** What follows a carriage return once the host has read it: the line
    feed that may come next belongs to the same line terminator. *)
Definition after_carriage_return (g : string) : string :=
  match g with
  | String c g' => if Ascii.eqb c LF then g' else g
  | "" => ""
  end.

(** * Proofs *)

(** ** Strings *)

Lemma append_assoc (a b c : string) : (a +:+ b) +:+ c = a +:+ (b +:+ c).
Proof. induction a as [|x a IH]; simpl; [reflexivity | f_equal; exact IH]. Qed.

Lemma strip_prefix_app (p s : string) : strip_prefix p (p +:+ s) = Some s.
Proof.
  induction p as [|a p IH]; simpl; [reflexivity|].
  now rewrite Ascii.eqb_refl.
Qed.

(** ** Lexing what the compiler escaped and quoted *)

Lemma lex_plain (c : ascii) (s : string) :
  is_plain c = true ->
  lex_chars InTemplate (String c s) = push c (lex_chars InTemplate s).
Proof.
  unfold is_plain. intros H.
  repeat (apply andb_prop in H; destruct H as [H ?]).
  repeat match goal with H : negb _ = true |- _ => apply negb_true_iff in H end.
  cbn [lex_chars terminator]. 
  repeat match goal with H : _ = false |- _ => rewrite H end.
  reflexivity.
Qed.

Lemma append_nil_r (a : string) : a +:+ "" = a.
Proof. induction a as [|x a IH]; simpl; [reflexivity | f_equal; exact IH]. Qed.

Lemma length_append (a b : string) :
  String.length (a +:+ b) = String.length a + String.length b.
Proof. induction a as [|x a IH]; simpl; [reflexivity | f_equal; exact IH]. Qed.

Lemma pushes_cons c t l : pushes (String c t) l = push c (pushes t l).
Proof. destruct l; reflexivity. Qed.

Lemma pushes_nil l : pushes "" l = l.
Proof. destruct l; reflexivity. Qed.

Lemma lex_escaped (f rest : string) :
  benign f = true ->
  lex_chars InTemplate (escapeCharactersRegExp_replace f +:+ rest)
  = pushes f (lex_chars InTemplate rest).
Proof.
  induction f as [|c f IH]; intros Hb.
  - simpl. now rewrite pushes_nil.
  - simpl in Hb. apply andb_prop in Hb. destruct Hb as [Hc Hf].
    rewrite pushes_cons, <- (IH Hf). clear IH Hf.
    unfold benign_char in Hc. apply andb_prop in Hc. destruct Hc as [H1 H2].
    apply negb_true_iff in H1, H2.
    cbn [escapeCharactersRegExp_replace].
    destruct (Ascii.eqb c backtick) eqn:E1.
    { apply Ascii.eqb_eq in E1. subst c. reflexivity. }
    destruct (Ascii.eqb c dollar) eqn:E2.
    { apply Ascii.eqb_eq in E2. subst c. reflexivity. }
    cbn [orb]. simpl String.append.
    apply lex_plain. unfold is_plain. now rewrite E1, E2, H1, H2.
Qed.

Lemma lex_json_char (c : ascii) (r : string) :
  lex_chars InString (json_quote_char c +:+ r) = push c (lex_chars InString r).
Proof.
  destruct c as [[] [] [] [] [] [] [] []]; reflexivity.
Qed.

Lemma lex_json (s rest : string) :
  lex_chars InString (json_quote_chars s +:+ String dquote rest)
  = LexEnd s rest.
Proof.
  induction s as [|c s IH]; [reflexivity|].
  cbn [json_quote_chars]. rewrite append_assoc, lex_json_char, IH.
  reflexivity.
Qed.

(** ** Indices and integer keys *)

Lemma span_stop (keep : ascii -> bool) (t : string) (c : ascii) (r : string) :
  string_forallb keep t = true -> keep c = false ->
  span keep (t +:+ String c r) = (t, String c r).
Proof.
  intros Ht Hc. induction t as [|x t IH]; simpl.
  - now rewrite Hc.
  - simpl in Ht. apply andb_prop in Ht. destruct Ht as [Hx Ht].
    now rewrite Hx, (IH Ht).
Qed.

Lemma string_forallb_impl (p q : ascii -> bool) (s : string) :
  (forall c, p c = true -> q c = true) ->
  string_forallb p s = true -> string_forallb q s = true.
Proof.
  intros Hpq. induction s as [|c s IH]; simpl; [reflexivity|].
  intros H. apply andb_prop in H. destruct H as [Hc Hs].
  now rewrite (Hpq _ Hc), (IH Hs).
Qed.

Lemma string_of_uint_digits (d : uint) :
  string_forallb is_digit (NilEmpty.string_of_uint d) = true.
Proof. induction d; simpl; auto. Qed.

Lemma string_of_uint_digits' (d : uint) :
  string_forallb is_digit (NilZero.string_of_uint d) = true.
Proof. destruct d; try reflexivity; apply (string_of_uint_digits (_ _)). Qed.

Lemma index_to_string_digits (i : nat) :
  string_forallb is_digit (index_to_string i) = true.
Proof. apply string_of_uint_digits'. Qed.

Lemma number_to_string_chars (n : Z) :
  string_forallb digit_or_minus (number_to_string n) = true.
Proof.
  unfold number_to_string.
  assert (H : forall d, string_forallb digit_or_minus (NilZero.string_of_uint d) = true).
  { intros d. apply (string_forallb_impl is_digit); [|apply string_of_uint_digits'].
    intros c Hc. unfold digit_or_minus. now rewrite Hc. }
  destruct (Z.to_int n); simpl; auto.
Qed.

Lemma string_of_uint_nonempty (d : uint) :
  exists c r, NilZero.string_of_uint d = String c r.
Proof. destruct d; simpl; eauto. Qed.

Lemma number_to_string_nonempty (n : Z) :
  exists c r, number_to_string n = String c r.
Proof.
  unfold number_to_string. destruct (Z.to_int n); simpl; eauto.
  apply string_of_uint_nonempty.
Qed.

Lemma digit_not_bracket c : is_digit c = true -> not_bracket c = true.
Proof.
  destruct c as [[] [] [] [] [] [] [] []]; cbv; intros H; congruence.
Qed.

Lemma digit_or_minus_not_bracket c :
  digit_or_minus c = true -> not_bracket c = true.
Proof.
  destruct c as [[] [] [] [] [] [] [] []]; cbv; intros H; congruence.
Qed.

Lemma digit_or_minus_not_dquote c :
  digit_or_minus c = true -> Ascii.eqb c dquote = false.
Proof.
  destruct c as [[] [] [] [] [] [] [] []]; cbv; intros H; congruence.
Qed.

Lemma parse_index_to_string (i : nat) :
  parse_index (index_to_string i) = Some i.
Proof.
  unfold parse_index, index_to_string.
  rewrite NilZero.usu.
  - rewrite DecimalNat.Unsigned.of_to. now rewrite String.eqb_refl.
  - intros E. pose proof (DecimalNat.Unsigned.of_to i) as H. rewrite E in H.
    destruct i; [|discriminate H].
    discriminate E.
Qed.

Lemma parse_integer_key_to_string (n : Z) :
  safe_integer n ->
  parse_integer_key (number_to_string n) = Some (number_to_string n).
Proof.
  intros Hn. unfold parse_integer_key, number_to_string.
  rewrite NilZero.isi.
  - rewrite DecimalZ.of_to. rewrite String.eqb_refl.
    apply Z.leb_le in Hn. now rewrite Hn.
  - destruct n; simpl; try discriminate.
    intros E. injection E as E. now apply DecimalPos.Unsigned.to_uint_nonnil in E.
  - destruct n; simpl; try discriminate.
    intros E. injection E as E. now apply DecimalPos.Unsigned.to_uint_nonnil in E.
Qed.

Lemma digits_not_null (t : string) :
  string_forallb digit_or_minus t = true -> String.eqb t "null" = false.
Proof.
  intros H. destruct (String.eqb_spec t "null") as [->|]; [|reflexivity].
  vm_compute in H. discriminate H.
Qed.

Lemma parse_key_literal_to_string (n : Z) :
  safe_integer n ->
  parse_key_literal (number_to_string n) = Some (number_to_string n).
Proof.
  intros Hn. unfold parse_key_literal.
  rewrite (digits_not_null _ (number_to_string_chars n)).
  now apply parse_integer_key_to_string.
Qed.

(** ** Parsing the substitutions the compiler writes *)

(** The text at hand starts with another prefix than [p]. *)
Ltac other_prefix p :=
  replace (strip_prefix p _) with (@None string) by reflexivity.

(** The characters of an index are digits, so none is a bracket. *)
Ltac index_digits :=
  apply (string_forallb_impl is_digit);
  [apply digit_not_bracket | apply index_to_string_digits].

Lemma parse_item_access (index : nat) (rest : string) :
  parse_substitution
    (("a[" +:+ index_to_string index +:+ "]") +:+ or_empty_close +:+ rest)
  = Ok (EItem index, rest).
Proof.
  rewrite !append_assoc. unfold parse_substitution.
  rewrite strip_prefix_app. cbv beta iota.
  change ("]" +:+ or_empty_close +:+ rest)
    with (String "]" (or_empty_close +:+ rest)).
  rewrite (span_stop not_bracket (index_to_string index)).
  - rewrite parse_index_to_string.
    change (String "]" (or_empty_close +:+ rest))
      with (("]" +:+ or_empty_close) +:+ rest).
    now rewrite strip_prefix_app.
  - index_digits.
  - reflexivity.
Qed.

Lemma parse_call_access (index : nat) (rest : string) :
  parse_substitution
    (("c=a[" +:+ index_to_string index +:+ "],c(b)")
       +:+ or_empty_close +:+ rest)
  = Ok (ECall index, rest).
Proof.
  rewrite !append_assoc. unfold parse_substitution.
  other_prefix "a[".
  rewrite strip_prefix_app. cbv beta iota.
  change ("],c(b)" +:+ or_empty_close +:+ rest)
    with (String "]" (",c(b)" +:+ or_empty_close +:+ rest)).
  rewrite (span_stop not_bracket (index_to_string index)).
  - rewrite parse_index_to_string.
    change (String "]" (",c(b)" +:+ or_empty_close +:+ rest))
      with (("],c(b)" +:+ or_empty_close) +:+ rest).
    now rewrite strip_prefix_app.
  - index_digits.
  - reflexivity.
Qed.

Lemma regexp_next_is_part (c : ascii) :
  identifierRegExp_next c = true -> identifier_part c = true.
Proof.
  destruct c as [[] [] [] [] [] [] [] []]; cbv; intros H; congruence.
Qed.

Lemma regexp_first_is_start (c : ascii) :
  identifierRegExp_first c = true -> identifier_start c = true.
Proof.
  destruct c as [[] [] [] [] [] [] [] []]; cbv; intros H; congruence.
Qed.

Lemma regexp_first_is_part (c : ascii) :
  identifierRegExp_first c = true -> identifier_part c = true.
Proof.
  destruct c as [[] [] [] [] [] [] [] []]; cbv; intros H; congruence.
Qed.

Lemma parse_property_access (name rest : string) :
  identifierRegExp_test name = true ->
  parse_substitution (("b." +:+ name) +:+ or_empty_close +:+ rest)
  = Ok (EProp name, rest).
Proof.
  intros Hn. rewrite !append_assoc. unfold parse_substitution.
  other_prefix "a[".
  other_prefix "c=a[".
  rewrite strip_prefix_app. cbv beta iota.
  destruct name as [|c name]; [discriminate Hn|].
  simpl in Hn. apply andb_prop in Hn. destruct Hn as [Hc Hname].
  change (or_empty_close +:+ rest)
    with (String "?" (String "?" (String dquote (String dquote (String "}" rest))))).
  rewrite (span_stop identifier_part (String c name)).
  - rewrite (regexp_first_is_start _ Hc).
    reflexivity || (simpl; now rewrite ?Ascii.eqb_refl).
  - simpl. rewrite (regexp_first_is_part _ Hc). simpl.
    apply (string_forallb_impl identifierRegExp_next); [apply regexp_next_is_part|].
    exact Hname.
  - reflexivity.
Qed.

Lemma parse_string_key_access (s rest : string) :
  parse_substitution
    (("b[" +:+ String dquote (json_quote_chars s +:+ String dquote "") +:+ "]")
       +:+ or_empty_close +:+ rest)
  = Ok (EProp s, rest).
Proof.
  replace (("b[" +:+ String dquote (json_quote_chars s +:+ String dquote "")
              +:+ "]") +:+ or_empty_close +:+ rest)
    with (String "b" (String "[" (String dquote
            (json_quote_chars s
               +:+ String dquote (String "]" (or_empty_close +:+ rest)))))).
  2:{ rewrite !append_assoc. simpl. now rewrite !append_assoc. }
  unfold parse_substitution.
  other_prefix "a[".
  other_prefix "c=a[".
  other_prefix "b.".
  match goal with |- context [strip_prefix "b[" (String "b" (String "[" ?x))] =>
    replace (strip_prefix "b[" (String "b" (String "[" x))) with (Some x)
      by reflexivity
  end.
  cbv beta iota. rewrite Ascii.eqb_refl.
  unfold lex_string. rewrite lex_json. cbn [bind fst snd].
  change (String "]" (or_empty_close +:+ rest))
    with (("]" +:+ or_empty_close) +:+ rest).
  now rewrite strip_prefix_app.
Qed.

Lemma parse_number_key_access (n : Z) (rest : string) :
  safe_integer n ->
  parse_substitution
    (("b[" +:+ number_to_string n +:+ "]") +:+ or_empty_close +:+ rest)
  = Ok (EProp (number_to_string n), rest).
Proof.
  intros Hn. rewrite !append_assoc. unfold parse_substitution.
  other_prefix "a[".
  other_prefix "c=a[".
  other_prefix "b.".
  rewrite strip_prefix_app.
  pose proof (number_to_string_chars n) as Hchars.
  pose proof (parse_key_literal_to_string n Hn) as Hkey.
  destruct (number_to_string_nonempty n) as (c & r & E).
  rewrite E in *. 
  change (String c r +:+ "]" +:+ or_empty_close +:+ rest)
    with (String c (r +:+ "]" +:+ or_empty_close +:+ rest)).
  cbv beta iota.
  assert (Hc : digit_or_minus c = true).
  { simpl in Hchars. now apply andb_prop in Hchars. }
  rewrite (digit_or_minus_not_dquote _ Hc).
  change (String c (r +:+ "]" +:+ or_empty_close +:+ rest))
    with (String c r +:+ String "]" (or_empty_close +:+ rest)).
  rewrite (span_stop not_bracket (String c r)).
  - rewrite Hkey.
    change (String "]" (or_empty_close +:+ rest))
      with (("]" +:+ or_empty_close) +:+ rest).
    now rewrite strip_prefix_app.
  - apply (string_forallb_impl digit_or_minus);
      [apply digit_or_minus_not_bracket | exact Hchars].
  - reflexivity.
Qed.

Lemma bind_assoc {A B C} (m : outcome A) (f : A -> outcome B)
    (g : B -> outcome C) :
  bind (bind m f) g = bind m (fun a => bind (f a) g).
Proof. destruct m; reflexivity. Qed.

Lemma access_sound (index : nat) (item : jsval) :
  nullish item = false -> safe_item item ->
  exists text e,
    access index item = Ok text
    /\ (forall rest,
         parse_substitution (text +:+ or_empty_close +:+ rest) = Ok (e, rest))
    /\ (forall a b, at_index a index = item ->
         eval_subst a b e = contribution item b).
Proof.
  intros Hnull Hsafe.
  destruct item as [v | f].
  - destruct v as [| | b | n | x | s | o]; try discriminate Hnull.
    + (* boolean *)
      exists ("b." +:+ boxable_to_string (BBool b)), (EProp (boxable_to_string (BBool b))).
      split; [destruct b; reflexivity|]. split.
      * intros rest. apply parse_property_access. now destruct b.
      * intros a c _. unfold contribution, get_js. destruct b; cbn;
          now destruct (get c _).
    + (* number *)
      unfold access. cbn [typeof typeof_value to_string_js to_string bind].
      cbn [String.eqb Ascii.eqb Bool.eqb andb].
      destruct (identifierRegExp_test (number_to_string n)) eqn:Etest.
      * exists ("b." +:+ number_to_string n), (EProp (number_to_string n)).
        split; [reflexivity|]. split.
        -- intros rest. now apply parse_property_access.
        -- intros a c _. unfold contribution, get_js. cbn.
           now destruct (get c _).
      * exists ("b[" +:+ number_to_string n +:+ "]"), (EProp (number_to_string n)).
        split; [reflexivity|]. split.
        -- intros rest. now apply parse_number_key_access.
        -- intros a c _. unfold contribution, get_js. cbn.
           now destruct (get c _).
    + (* NaN and Infinity are identifiers; -Infinity is set aside *)
      destruct x; [| | destruct Hsafe];
        (eexists; eexists (EProp _); split; [reflexivity|]; split;
         [ intros rest; now apply parse_property_access
         | intros a c _; unfold contribution, get_js; cbn;
           now destruct (get c _) ]).
    + (* string *)
      unfold access. cbn [typeof typeof_value to_string_js to_string bind].
      cbn [String.eqb Ascii.eqb Bool.eqb andb].
      destruct (identifierRegExp_test s) eqn:Etest.
      * exists ("b." +:+ s), (EProp s).
        split; [reflexivity|]. split.
        -- intros rest. now apply parse_property_access.
        -- intros a c _. unfold contribution, get_js. cbn.
           now destruct (get c _).
      * exists ("b[" +:+ String dquote (json_quote_chars s +:+ String dquote "") +:+ "]"),
               (EProp s).
        split; [reflexivity|]. split.
        -- intros rest. apply parse_string_key_access.
        -- intros a c _. unfold contribution, get_js. cbn.
           now destruct (get c _).
    + (* object *)
      exists ("a[" +:+ index_to_string index +:+ "]"), (EItem index).
      split; [reflexivity|]. split.
      * intros rest. apply parse_item_access.
      * intros a c Ha. cbn [eval_subst]. now rewrite Ha.
  - exists ("c=a[" +:+ index_to_string index +:+ "],c(b)"), (ECall index).
    split; [reflexivity|]. split.
    + intros rest. apply parse_call_access.
    + intros a c Ha. cbn [eval_subst]. rewrite Ha.
      unfold contribution. cbn. now destruct (call f c).
Qed.

(** ** The two folds *)

Lemma parse_template_escaped (fuel : nat) (f X : string) :
  benign f = true ->
  parse_template fuel (escapeCharactersRegExp_replace f +:+ X)
  = prepend f (parse_template fuel X).
Proof.
  intros Hf. destruct fuel; cbn [parse_template]; rewrite (lex_escaped _ _ Hf);
    destruct (lex_chars InTemplate X); cbn [pushes prepend]; try reflexivity.
  destruct (parse_substitution rest) as [[e r]| |]; cbn [bind fst snd];
    try reflexivity.
  destruct (parse_template fuel r) as [[ps r']| |]; reflexivity.
Qed.

Section Folds.

(** The template and the items of one call to the compiler. *)
Variables (T : list string) (I : list jsval).

Lemma generated_step_acc body f i :
  generated_step T I body f i
  = let! seg := generated_step T I "" f i in Ok (body +:+ seg).
Proof.
  unfold generated_step. cbv zeta.
  destruct (not_last i (length T)); [|reflexivity].
  destruct (negb (nullish (at_index I i))); [|reflexivity].
  destruct (access i (at_index I i)); cbn [bind]; try reflexivity.
  now rewrite !append_assoc.
Qed.

Lemma fallback_step_acc b result f i :
  fallback_step T I b result f i
  = let! seg := fallback_step T I b "" f i in Ok (result +:+ seg).
Proof.
  unfold fallback_step. cbv zeta.
  destruct (not_last i (length T)); [|reflexivity].
  destruct (negb (nullish (at_index I i))); [|reflexivity].
  match goal with |- bind ?m _ = _ => destruct m; cbn [bind]; try reflexivity end.
  destruct (interpolate a); cbn [bind]; try reflexivity.
  now rewrite !append_assoc.
Qed.

Lemma reduce_from_generated l i acc :
  reduce_from (generated_step T I) l i acc
  = let! t := generated_text T I l i in Ok (acc +:+ t).
Proof.
  revert i acc. induction l as [|f l IH]; intros i acc;
    cbn [reduce_from generated_text bind].
  - now rewrite append_nil_r.
  - rewrite generated_step_acc.
    destruct (generated_step T I "" f i) as [seg| |]; cbn [bind];
      try reflexivity.
    rewrite IH.
    destruct (generated_text T I l (S i)); cbn [bind]; try reflexivity.
    now rewrite append_assoc.
Qed.

Lemma reduce_from_fallback b l i acc :
  reduce_from (fallback_step T I b) l i acc
  = let! t := fallback_text T I b l i in Ok (acc +:+ t).
Proof.
  revert i acc. induction l as [|f l IH]; intros i acc;
    cbn [reduce_from fallback_text bind].
  - now rewrite append_nil_r.
  - rewrite fallback_step_acc.
    destruct (fallback_step T I b "" f i) as [seg| |]; cbn [bind];
      try reflexivity.
    rewrite IH.
    destruct (fallback_text T I b l (S i)); cbn [bind]; try reflexivity.
    now rewrite append_assoc.
Qed.

Lemma fallback_step_contribution b f i :
  not_last i (length T) = true -> nullish (at_index I i) = false ->
  fallback_step T I b "" f i
  = let! s := contribution (at_index I i) b in Ok (f +:+ s).
Proof.
  intros H1 H2. unfold fallback_step, contribution. cbv zeta.
  rewrite H1, H2. cbn [negb]. rewrite bind_assoc. reflexivity.
Qed.

Lemma generated_body_text :
  generated_body T I
  = let! text := generated_text T I T 0 in
    Ok ("return " +:+ guard_text +:+ text +:+ String backtick "}").
Proof.
  unfold generated_body, reduce. rewrite reduce_from_generated.
  destruct (generated_text T I T 0); reflexivity.
Qed.

Lemma fallback_evaluator_text (b : context) :
  fallback_evaluator T I b
  = if String.eqb (typeof_context b) "object" then fallback_text T I b T 0
    else Throw (TypeError errMsg).
Proof.
  unfold fallback_evaluator, reduce. rewrite reduce_from_fallback.
  destruct (String.eqb (typeof_context b) "object"); cbn [negb];
    [|reflexivity].
  now destruct (fallback_text T I b T 0).
Qed.

(** Every numeric key among the items is a host number. *)
Hypothesis HI : Forall safe_item I.

Lemma item_is_safe (i : nat) : safe_item (at_index I i).
Proof.
  unfold at_index. destruct (I !! i) as [j|] eqn:E; [|exact Logic.I].
  rewrite Forall_forall in HI. apply HI. eapply list_elem_of_lookup_2, E.
Qed.

(** The text written for the fragments [l] parses back, and rendering what
    was parsed is folding over [l]. *)
Lemma generated_parses :
  forall (l : list string) (i : nat),
    Forall (fun f => benign f = true) l ->
    exists text,
      generated_text T I l i = Ok text
      /\ forall fuel rest, String.length text <= fuel ->
           exists c ps,
             parse_template fuel (text +:+ String backtick rest)
             = Ok (Text c :: ps, rest)
             /\ forall b, render I b (Text c :: ps) = fallback_text T I b l i.
Proof.
  intros l. induction l as [|f l IH]; intros i Hl.
  - exists "". split; [reflexivity|]. intros fuel rest _.
    exists "", []. split; [destruct fuel; reflexivity | reflexivity].
  - inversion Hl as [|? ? Hf Hl']; subst.
    destruct (IH (S i) Hl') as (text' & Htext' & Hparse'). clear IH.
    cbn [generated_text fallback_text].
    destruct (not_last i (length T) && negb (nullish (at_index I i))) eqn:Hsub.
    + (* a substitution follows the fragment *)
      apply andb_prop in Hsub. destruct Hsub as [Hlast Hnull].
      apply negb_true_iff in Hnull.
      destruct (access_sound i _ Hnull (item_is_safe i))
        as (acc & e & Hacc & Hp & He).
      unfold generated_step. cbv zeta. rewrite Hlast, Hnull, Hacc, Htext'.
      cbn [negb bind]. eexists. split; [reflexivity|].
      intros fuel rest Hfuel.
      destruct fuel as [|fuel].
      { exfalso. rewrite !length_append in Hfuel. simpl in Hfuel. lia. }
      destruct (Hparse' fuel rest) as (c & ps & Hpt & Hr).
      { rewrite !length_append in Hfuel. simpl in Hfuel. lia. }
      exists f, (Subst e :: Text c :: ps). split.
      * change ("" +:+ escapeCharactersRegExp_replace f)
          with (escapeCharactersRegExp_replace f).
        rewrite !append_assoc. cbn [parse_template].
        rewrite (lex_escaped _ _ Hf).
        set (after := acc +:+ or_empty_close +:+ text' +:+ String backtick rest).
        change ("${" +:+ after) with (String dollar (String "{" after)).
        cbn [lex_chars terminator].
        replace (Ascii.eqb dollar backtick) with false by reflexivity.
        replace (Ascii.eqb dollar backslash) with false by reflexivity.
        rewrite !Ascii.eqb_refl. cbn [pushes].
        unfold after. rewrite Hp. cbn [bind fst snd]. rewrite Hpt.
        cbn [bind fst snd].
        now rewrite append_nil_r.
      * intros b. rewrite (fallback_step_contribution _ _ _ Hlast Hnull).
        cbn [render]. rewrite (He I b eq_refl).
        specialize (Hr b). cbn [render] in Hr. rewrite <- Hr.
        destruct (contribution (at_index I i) b); cbn [bind]; try reflexivity.
        destruct (render I b ps); cbn [bind]; try reflexivity.
        now rewrite !append_assoc.
    + (* the fragment is followed by the next one, or is the last *)
      assert (Hg : generated_step T I "" f i
                   = Ok (escapeCharactersRegExp_replace f)).
      { unfold generated_step. cbv zeta.
        destruct (not_last i (length T)); [|reflexivity].
        cbn [andb] in Hsub. now rewrite Hsub. }
      assert (Hb : forall b, fallback_step T I b "" f i = Ok f).
      { intros b. unfold fallback_step. cbv zeta.
        destruct (not_last i (length T)); [|reflexivity].
        cbn [andb] in Hsub. now rewrite Hsub. }
      rewrite Hg, Htext'. cbn [bind]. eexists. split; [reflexivity|].
      intros fuel rest Hfuel.
      destruct (Hparse' fuel rest) as (c & ps & Hpt & Hr).
      { rewrite length_append in Hfuel. lia. }
      exists (f +:+ c), ps. split.
      * rewrite append_assoc, (parse_template_escaped _ _ _ Hf), Hpt.
        reflexivity.
      * intros b. rewrite Hb. cbn [bind]. rewrite <- (Hr b). cbn [render].
        destruct (render I b ps); cbn [bind]; try reflexivity.
        now rewrite append_assoc.
Qed.

Lemma parse_arrow_guard (fuel : nat) (X : string) :
  parse_arrow fuel (guard_text +:+ X)
  = let! t := parse_template fuel X in
    expect "}" (snd t) (fun r5 => Ok (Guarded "object" errMsg (fst t), r5)).
Proof. reflexivity. Qed.

(** The program the generated strategy builds is read by the host as the
    guarded template literal, and running it is running the fallback
    evaluator. *)
Lemma generated_matches_fallback_here (b : context) :
  Forall (fun f => benign f = true) T ->
  render_with Generated T I b = render_with Fallback T I b.
Proof.
  intros HT.
  destruct (generated_parses T 0 HT) as (text & Htext & Hparse).
  unfold render_with, bareTemplate, bareTemplate_generated,
    bareTemplate_fallback.
  rewrite generated_body_text, Htext. cbn [bind].
  rewrite fallback_evaluator_text.
  unfold Function_, parse_body.
  set (body := "return " +:+ guard_text +:+ text +:+ String backtick "}").
  unfold expect at 1. unfold body at 1. rewrite strip_prefix_app.
  assert (Hlen : exists n,
             String.length body = S n /\ String.length text <= S n).
  { exists (String.length body - 1). unfold body. rewrite !length_append.
    simpl String.length. lia. }
  destruct Hlen as (n & -> & Hn).
  cbn [parse_arrows]. rewrite parse_arrow_guard.
  destruct (Hparse (S n) "}" Hn) as (c & ps & Hp & Hr).
  rewrite Hp. cbn [bind fst snd].
  replace (expect "}" "}" _)
    with (Ok (Guarded "object" errMsg (Text c :: ps), "")) by reflexivity.
  cbn [bind fst snd trailer run_arrow].
  now rewrite Hr.
Qed.

End Folds.

Lemma generated_matches_fallback (T : list string) (I : list jsval)
    (b : context) :
  Forall (fun f => benign f = true) T ->
  Forall safe_item I ->
  render_with Generated T I b = render_with Fallback T I b.
Proof. intros HT HI. now apply generated_matches_fallback_here. Qed.

(** ** Templates with one item, and with none *)

Lemma fallback_key (pre post : string) (k : value) (name : string)
    (props : gmap string value) :
  to_string k = Ok name ->
  nullish (JV k) = false ->
  String.eqb (typeof_value k) "object" = false ->
  render_with Fallback [pre; post] [JV k] (CtxObject props)
  = let! c := key_substitution (lookup props name) in Ok (pre +:+ c +:+ post).
Proof.
  intros Hname Hnull Hobj.
  unfold render_with, bareTemplate, bareTemplate_fallback. cbn [bind].
  rewrite fallback_evaluator_text. cbn [typeof_context String.eqb Ascii.eqb Bool.eqb].
  cbn [fallback_text]. 
  rewrite fallback_step_contribution; [| reflexivity | exact Hnull].
  unfold contribution, get_js.
  change (at_index [JV k] 0) with (JV k).
  change (fallback_step [pre; post] [JV k] (CtxObject props) "" post 1)
    with (@Ok string post).
  cbn [typeof to_string_js]. rewrite Hobj.
  replace (String.eqb (typeof_value k) "function") with false
    by (destruct k; reflexivity).
  rewrite Hname. cbn [bind get].
  replace (match props !! name with Some v => Ok v | None => Ok VUndefined end)
    with (Ok (lookup props name))
    by (unfold lookup; destruct (props !! name); reflexivity).
  cbn [bind].
  replace (interpolate (JV (lookup props name)))
    with (key_substitution (lookup props name))
    by (destruct (lookup props name); reflexivity).
  destruct (key_substitution (lookup props name)); cbn [bind];
    rewrite ?append_assoc, ?append_nil_r; reflexivity.
Qed.

Lemma key_substitution_general (s : strategy) (pre post : string) (k : value)
    (name : string) (props : gmap string value) :
  fragment_ok s pre -> fragment_ok s post ->
  to_string k = Ok name ->
  nullish (JV k) = false ->
  String.eqb (typeof_value k) "object" = false ->
  safe_item (JV k) ->
  render_with s [pre; post] [JV k] (CtxObject props)
  = let! c := key_substitution (lookup props name) in Ok (pre +:+ c +:+ post).
Proof.
  intros Hpre Hpost Hname Hnull Hobj Hsafe.
  destruct s.
  - rewrite generated_matches_fallback.
    + now apply fallback_key.
    + repeat constructor; assumption.
    + repeat constructor; assumption.
  - now apply fallback_key.
Qed.

Lemma fallback_single (pre post : string) (item : jsval) (c : context) :
  String.eqb (typeof_context c) "object" = true ->
  nullish item = false ->
  render_with Fallback [pre; post] [item] c
  = let! x := contribution item c in Ok (pre +:+ x +:+ post).
Proof.
  intros Hc Hnull.
  unfold render_with, bareTemplate, bareTemplate_fallback. cbn [bind].
  rewrite fallback_evaluator_text, Hc. cbn [fallback_text].
  rewrite fallback_step_contribution; [| reflexivity | exact Hnull].
  change (at_index [item] 0) with item.
  change (fallback_step [pre; post] [item] c "" post 1) with (@Ok string post).
  destruct (contribution item c); cbn [bind];
    rewrite ?append_assoc, ?append_nil_r; reflexivity.
Qed.

Lemma single_item (s : strategy) (pre post : string) (item : jsval)
    (c : context) :
  fragment_ok s pre -> fragment_ok s post -> safe_item item ->
  String.eqb (typeof_context c) "object" = true ->
  nullish item = false ->
  render_with s [pre; post] [item] c
  = let! x := contribution item c in Ok (pre +:+ x +:+ post).
Proof.
  intros Hpre Hpost Hsafe Hc Hnull. destruct s.
  - rewrite generated_matches_fallback.
    + now apply fallback_single.
    + repeat constructor; assumption.
    + repeat constructor; assumption.
  - now apply fallback_single.
Qed.

Lemma fallback_text_no_items (T : list string) (b : context)
    (l : list string) (i : nat) :
  fallback_text T [] b l i = Ok (concat_all l).
Proof.
  revert i. induction l as [|f l IH]; intros i; [reflexivity|].
  cbn [fallback_text concat_all]. rewrite IH.
  replace (fallback_step T [] b "" f i) with (@Ok string f); [reflexivity|].
  unfold fallback_step. cbv zeta.
  destruct (not_last i (length T)); [|reflexivity].
  unfold at_index. now rewrite lookup_nil.
Qed.

Lemma add_strings (a b : string) :
  add (JV (VStr a)) (JV (VStr b)) = Ok (VStr (a +:+ b)).
Proof. reflexivity. Qed.

Lemma wrapped_literal_general (s : strategy) (pre post : string)
    (o : object) (c : context) :
  fragment_ok s pre -> fragment_ok s post ->
  typeof_context c = "object" ->
  render_with s [pre; post] [JV (VObj o)] c
  = let! x := to_string (VObj o) in Ok (pre +:+ x +:+ post).
Proof.
  intros Hpre Hpost Hc.
  rewrite single_item; try assumption.
  - reflexivity.
  - exact Logic.I.
  - rewrite Hc. reflexivity.
  - reflexivity.
Qed.

(** ** Fuel *)

Lemma leaves_push c l n : leaves l n -> leaves (push c l) n.
Proof. destruct l; auto. Qed.

Lemma leaves_mono l n m : n <= m -> leaves l n -> leaves l m.
Proof. destruct l; simpl; lia. Qed.

Lemma lex_chars_leaves (m : mode) (n : nat) :
  forall s, String.length s <= n -> leaves (lex_chars m s) (String.length s).
Proof.
  induction n as [|n IH]; intros s Hlen.
  - destruct s; [exact Logic.I | simpl in Hlen; lia].
  - destruct s as [|c s1]; [exact Logic.I|].
    assert (Hrec : forall t, String.length t <= n ->
              String.length t <= String.length s1 ->
              forall ch, leaves (push ch (lex_chars m t)) (String.length (String c s1))).
    { intros t Ht Hts ch. apply leaves_push.
      eapply leaves_mono; [|apply IH; exact Ht]. simpl. lia. }
    assert (Hrec' : forall t, String.length t <= n ->
              String.length t <= String.length s1 ->
              leaves (lex_chars m t) (String.length (String c s1))).
    { intros t Ht Hts.
      eapply leaves_mono; [|apply IH; exact Ht]. simpl. lia. }
    simpl in Hlen.
    cbn [lex_chars].
    repeat first
      [ progress (cbn [leaves String.length])
      | match goal with
        | |- leaves (push _ (lex_chars _ _)) _ => apply Hrec; simpl in *; lia
        | |- leaves (lex_chars _ _) _ => apply Hrec'; simpl in *; lia
        | |- leaves (if ?b then _ else _) _ => destruct b
        | |- leaves (match ?x with _ => _ end) _ => destruct x
        | |- True => exact Logic.I
        | |- _ <= _ => simpl in *; lia
        end ].
Qed.

Lemma strip_prefix_length (p s r : string) :
  strip_prefix p s = Some r -> String.length r <= String.length s.
Proof.
  revert s. induction p as [|a p IH]; intros s H; simpl in H.
  - injection H as ->. lia.
  - destruct s as [|b s]; [discriminate|].
    destruct (Ascii.eqb a b); [|discriminate].
    apply IH in H. simpl. lia.
Qed.

Lemma span_length (keep : ascii -> bool) (s : string) :
  String.length (snd (span keep s)) <= String.length s.
Proof.
  induction s as [|c s IH]; simpl; [lia|].
  destruct (keep c); [|simpl; lia].
  destruct (span keep s); simpl in *. lia.
Qed.

Lemma lex_string_length (s : string) (lit : string * string) :
  lex_string s = Ok lit -> S (String.length (snd lit)) <= String.length s.
Proof.
  unfold lex_string. intros H.
  pose proof (lex_chars_leaves InString _ s (le_n _)) as Hl.
  destruct (lex_chars InString s); try discriminate.
  injection H as <-. exact Hl.
Qed.

Lemma parse_substitution_length (s : string) (e : expr) (r : string) :
  parse_substitution s = Ok (e, r) -> String.length r <= String.length s.
Proof.
  unfold parse_substitution. intros H.
  destruct (strip_prefix "a[" s) as [r0|] eqn:E0.
  { apply strip_prefix_length in E0.
    pose proof (span_length not_bracket r0) as Hs.
    destruct (span not_bracket r0) as [t r1]. simpl in Hs.
    destruct (parse_index t); [|discriminate].
    destruct (strip_prefix _ r1) as [r2|] eqn:E2; [|discriminate].
    apply strip_prefix_length in E2. injection H as _ <-. lia. }
  destruct (strip_prefix "c=a[" s) as [r0|] eqn:E1.
  { apply strip_prefix_length in E1.
    pose proof (span_length not_bracket r0) as Hs.
    destruct (span not_bracket r0) as [t r1]. simpl in Hs.
    destruct (parse_index t); [|discriminate].
    destruct (strip_prefix _ r1) as [r2|] eqn:E2; [|discriminate].
    apply strip_prefix_length in E2. injection H as _ <-. lia. }
  destruct (strip_prefix "b." s) as [r0|] eqn:E2.
  { apply strip_prefix_length in E2.
    pose proof (span_length identifier_part r0) as Hs.
    destruct (span identifier_part r0) as [name r1]. simpl in Hs.
    destruct name as [|c name]; [discriminate|].
    destruct (identifier_start c); [|discriminate].
    destruct (strip_prefix _ r1) as [r2|] eqn:E3; [|discriminate].
    apply strip_prefix_length in E3. injection H as _ <-. lia. }
  destruct (strip_prefix "b[" s) as [r0|] eqn:E3; [|discriminate].
  apply strip_prefix_length in E3.
  destruct r0 as [|c r1]; [discriminate|].
  destruct (Ascii.eqb c dquote).
  - destruct (lex_string r1) as [lit| |] eqn:El; try discriminate.
    apply lex_string_length in El. cbn [bind] in H.
    destruct (strip_prefix _ (snd lit)) as [r2|] eqn:E4; [|discriminate].
    apply strip_prefix_length in E4. injection H as _ <-. simpl in *. lia.
  - pose proof (span_length not_bracket (String c r1)) as Hs.
    destruct (span not_bracket (String c r1)) as [t r2]. simpl in Hs.
    destruct (parse_key_literal t); [|discriminate].
    destruct (strip_prefix _ r2) as [r3|] eqn:E4; [|discriminate].
    apply strip_prefix_length in E4. injection H as _ <-. simpl in *. lia.
Qed.

Lemma parse_template_fuel (f1 : nat) :
  forall f2 s, String.length s <= f1 -> String.length s <= f2 ->
    parse_template f1 s = parse_template f2 s.
Proof.
  induction f1 as [|f1 IH]; intros f2 s H1 H2.
  - destruct s; [|simpl in H1; lia]. destruct f2; reflexivity.
  - destruct f2 as [|f2].
    { destruct s; [reflexivity | simpl in H2; lia]. }
    cbn [parse_template].
    pose proof (lex_chars_leaves InTemplate _ s (le_n _)) as Hl.
    destruct (lex_chars InTemplate s) as [| cooked rest | |]; try reflexivity.
    simpl in Hl.
    destruct (parse_substitution rest) as [[e r1]| |] eqn:E; cbn [bind fst snd];
      try reflexivity.
    apply parse_substitution_length in E.
    rewrite (IH f2 r1) by lia. reflexivity.
Qed.

Lemma parse_template_length (fuel : nat) :
  forall s ps r, parse_template fuel s = Ok (ps, r) ->
    S (String.length r) <= String.length s.
Proof.
  induction fuel as [|fuel IH]; intros s ps r H; cbn [parse_template] in H;
    pose proof (lex_chars_leaves InTemplate _ s (le_n _)) as Hl;
    destruct (lex_chars InTemplate s) as [c0 r0 | cooked rest | |];
    try discriminate; simpl in Hl.
  - injection H as _ <-. exact Hl.
  - injection H as _ <-. exact Hl.
  - destruct (parse_substitution rest) as [[e r1]| |] eqn:E; try discriminate.
    cbn [bind fst snd] in H.
    destruct (parse_template fuel r1) as [[ps' r']| |] eqn:E'; try discriminate.
    cbn [bind fst snd] in H. injection H as _ <-.
    apply parse_substitution_length in E. apply IH in E'. lia.
Qed.

Lemma parse_arrow_fuel (f1 f2 : nat) (s : string) :
  String.length s <= f1 -> String.length s <= f2 ->
  parse_arrow f1 s = parse_arrow f2 s.
Proof.
  intros H1 H2. unfold parse_arrow, expect.
  destruct (strip_prefix "b=>" s) as [r|] eqn:E0; [|reflexivity].
  apply strip_prefix_length in E0.
  destruct r as [|c r1]; [reflexivity|].
  destruct (Ascii.eqb c dquote); [reflexivity|].
  destruct (strip_prefix _ (String c r1)) as [r2|] eqn:E1; [|reflexivity].
  apply strip_prefix_length in E1.
  destruct (lex_string r2) as [type| |] eqn:E2; try reflexivity.
  apply lex_string_length in E2. cbn [bind].
  destruct (strip_prefix _ (snd type)) as [r3|] eqn:E3; [|reflexivity].
  apply strip_prefix_length in E3.
  destruct (lex_string r3) as [message| |] eqn:E4; try reflexivity.
  apply lex_string_length in E4. cbn [bind].
  destruct (strip_prefix _ (snd message)) as [r4|] eqn:E5; [|reflexivity].
  apply strip_prefix_length in E5.
  rewrite (parse_template_fuel f1 f2 r4) by lia. reflexivity.
Qed.

Lemma parse_arrow_length (fuel : nat) (s : string) (f : arrow * string) :
  parse_arrow fuel s = Ok f -> S (String.length (snd f)) <= String.length s.
Proof.
  unfold parse_arrow, expect. intros H.
  destruct (strip_prefix "b=>" s) as [r|] eqn:E0; [|discriminate].
  apply strip_prefix_length in E0.
  destruct r as [|c r1]; [discriminate|].
  destruct (Ascii.eqb c dquote).
  { destruct (lex_string r1) as [lit| |] eqn:El; try discriminate.
    apply lex_string_length in El. cbn [bind] in H. injection H as <-.
    simpl in *. lia. }
  destruct (strip_prefix _ (String c r1)) as [r2|] eqn:E1; [|discriminate].
  apply strip_prefix_length in E1.
  destruct (lex_string r2) as [type| |] eqn:E2; try discriminate.
  apply lex_string_length in E2. cbn [bind] in H.
  destruct (strip_prefix _ (snd type)) as [r3|] eqn:E3; [|discriminate].
  apply strip_prefix_length in E3.
  destruct (lex_string r3) as [message| |] eqn:E4; try discriminate.
  apply lex_string_length in E4. cbn [bind] in H.
  destruct (strip_prefix _ (snd message)) as [r4|] eqn:E5; [|discriminate].
  apply strip_prefix_length in E5.
  destruct (parse_template fuel r4) as [[ps r5]| |] eqn:E6; try discriminate.
  apply parse_template_length in E6. cbn [bind fst snd] in H.
  destruct (strip_prefix "}" r5) as [r6|] eqn:E7; [|discriminate].
  apply strip_prefix_length in E7. injection H as <-. simpl in *. lia.
Qed.

Lemma parse_arrows_fuel (f1 : nat) :
  forall f2 s, String.length s <= f1 -> String.length s <= f2 ->
    parse_arrows f1 s = parse_arrows f2 s.
Proof.
  induction f1 as [|f1 IH]; intros f2 s H1 H2.
  - destruct s; [|simpl in H1; lia]. destruct f2; reflexivity.
  - destruct f2 as [|f2].
    { destruct s; [reflexivity | simpl in H2; lia]. }
    cbn [parse_arrows].
    rewrite (parse_arrow_fuel (S f1) (S f2) s H1 H2).
    destruct (parse_arrow (S f2) s) as [f| |] eqn:E; cbn [bind]; try reflexivity.
    apply parse_arrow_length in E.
    destruct (snd f) as [|c r]; [reflexivity|].
    destruct (Ascii.eqb c ","); [|reflexivity].
    simpl in E. apply IH; lia.
Qed.

(** ** Fragments and items in turn *)

Lemma not_last_true (i n : nat) : S i < n -> not_last i n = true.
Proof.
  intros H. unfold not_last. apply negb_true_iff, Z.eqb_neq. lia.
Qed.

Lemma not_last_false (i n : nat) : S i = n -> not_last i n = false.
Proof.
  intros H. unfold not_last. apply negb_false_iff, Z.eqb_eq. lia.
Qed.

Lemma at_index_drop (I : list jsval) (i k : nat) :
  at_index (drop i I) k = at_index I (i + k).
Proof. unfold at_index. now rewrite lookup_drop. Qed.

Lemma fallback_step_insertion (T : list string) (I : list jsval)
    (b : context) (f : string) (i : nat) :
  not_last i (length T) = true ->
  fallback_step T I b "" f i
  = let! x := insertion (at_index I i) b in Ok (f +:+ x).
Proof.
  intros H. unfold insertion.
  destruct (nullish (at_index I i)) eqn:E.
  - unfold fallback_step. cbv zeta. rewrite H, E. cbn [negb bind].
    now rewrite append_nil_r.
  - now apply fallback_step_contribution.
Qed.

Lemma fallback_text_interleave (T : list string) (I : list jsval)
    (b : context) :
  forall (l : list string) (i : nat),
    i + length l = length T ->
    fallback_text T I b l i = interleave b l (drop i I).
Proof.
  intros l. induction l as [|f l IH]; intros i H; [reflexivity|].
  cbn [fallback_text interleave]. cbn [length] in H.
  destruct l as [|g l].
  - replace (fallback_step T I b "" f i) with (@Ok string f).
    + cbn [fallback_text bind]. now rewrite append_nil_r.
    + unfold fallback_step. cbv zeta. rewrite not_last_false; [reflexivity|].
      cbn [length] in H. lia.
  - rewrite fallback_step_insertion
      by (apply not_last_true; cbn [length] in H; lia).
    rewrite IH by lia.
    rewrite at_index_drop, Nat.add_0_r, drop_drop.
    replace (i + 1) with (S i) by lia.
    destruct (insertion (at_index I i) b) as [x| |]; cbn [bind];
      try reflexivity.
    destruct (interleave b (g :: l) (drop (S i) I)); cbn [bind];
      try reflexivity.
    now rewrite append_assoc.
Qed.

Lemma fallback_evaluator_evaluation (T : list string) (I : list jsval)
    (b : context) :
  fallback_evaluator T I b = evaluation T I b.
Proof.
  rewrite fallback_evaluator_text. unfold evaluation.
  destruct (String.eqb (typeof_context b) "object"); [|reflexivity].
  now rewrite fallback_text_interleave.
Qed.

(** The generated strategy compiles every template without backslash and
    carriage return, and its evaluator is the fallback one. *)
Lemma generated_compiles (T : list string) (I : list jsval) :
  Forall (fun f => benign f = true) T ->
  Forall safe_item I ->
  exists ev,
    bareTemplate_generated T I = Ok ev
    /\ forall b, ev b = fallback_evaluator T I b.
Proof.
  intros HT HI.
  destruct (generated_parses T I HI T 0 HT) as (text & Htext & Hparse).
  unfold bareTemplate_generated.
  rewrite generated_body_text, Htext. cbn [bind].
  unfold Function_, parse_body.
  set (body := "return " +:+ guard_text +:+ text +:+ String backtick "}").
  unfold expect at 1. unfold body at 1. rewrite strip_prefix_app.
  assert (Hlen : exists n,
             String.length body = S n /\ String.length text <= S n).
  { exists (String.length body - 1). unfold body. rewrite !length_append.
    simpl String.length. lia. }
  destruct Hlen as (n & -> & Hn).
  cbn [parse_arrows]. rewrite parse_arrow_guard.
  destruct (Hparse (S n) "}" Hn) as (c & ps & Hp & Hr).
  rewrite Hp. cbn [bind fst snd].
  replace (expect "}" "}" _)
    with (Ok (Guarded "object" errMsg (Text c :: ps), "")) by reflexivity.
  cbn [bind fst snd trailer].
  eexists. split; [reflexivity|].
  intros b. cbn [run_arrow]. rewrite fallback_evaluator_text.
  now rewrite Hr.
Qed.

Lemma compiles (s : strategy) (T : list string) (I : list jsval) :
  Forall (fragment_ok s) T ->
  Forall safe_item I ->
  exists ev,
    bareTemplate s T I = Ok ev /\ forall b, ev b = evaluation T I b.
Proof.
  intros HT HI. destruct s.
  - destruct (generated_compiles T I HT HI) as (ev & Hev & Hb).
    exists ev. split; [exact Hev|].
    intros b. now rewrite Hb, fallback_evaluator_evaluation.
  - exists (fallback_evaluator T I). split; [reflexivity|].
    intros b. apply fallback_evaluator_evaluation.
Qed.

Lemma render_with_evaluation (s : strategy) (T : list string)
    (I : list jsval) (b : context) :
  Forall (fragment_ok s) T ->
  Forall safe_item I ->
  render_with s T I b = evaluation T I b.
Proof.
  intros HT HI. destruct (compiles s T I HT HI) as (ev & Hev & Hb).
  unfold render_with. rewrite Hev. cbn [bind]. apply Hb.
Qed.

Lemma compiles_ok (s : strategy) (T : list string) (I : list jsval) :
  Forall (fragment_ok s) T ->
  Forall (item_ok s) I ->
  exists ev,
    bareTemplate s T I = Ok ev /\ forall b, ev b = evaluation T I b.
Proof.
  destruct s; [apply compiles|].
  intros _ _. exists (fallback_evaluator T I). split; [reflexivity|].
  intros b. apply fallback_evaluator_evaluation.
Qed.

Lemma render_with_evaluation_ok (s : strategy) (T : list string)
    (I : list jsval) (b : context) :
  Forall (fragment_ok s) T ->
  Forall (item_ok s) I ->
  render_with s T I b = evaluation T I b.
Proof.
  intros HT HI. destruct (compiles_ok s T I HT HI) as (ev & Hev & Hb).
  unfold render_with. rewrite Hev. cbn [bind]. apply Hb.
Qed.

Lemma interleave_cons (b : context) (f g : string) (l : list string)
    (J : list jsval) :
  interleave b (f :: g :: l) J
  = let! x := insertion (at_index J 0) b in
    let! r := interleave b (g :: l) (drop 1 J) in
    Ok (f +:+ x +:+ r).
Proof. reflexivity. Qed.

Lemma interleave_agree (b : context) :
  forall (l : list string) (J J' : list jsval),
    (forall k, S k < length l -> at_index J k = at_index J' k) ->
    interleave b l J = interleave b l J'.
Proof.
  intros l. induction l as [|f l IH]; intros J J' H; [reflexivity|].
  destruct l as [|g l]; [reflexivity|].
  rewrite !interleave_cons.
  rewrite (H 0) by (cbn [length]; lia).
  rewrite (IH (drop 1 J) (drop 1 J')); [reflexivity|].
  intros k Hk. rewrite !at_index_drop. apply H. cbn [length] in *. lia.
Qed.

Lemma interleave_nullish (b : context) :
  forall (l : list string) (J : list jsval),
    Forall (fun j => nullish j = true) J ->
    interleave b l J = Ok (concat_all l).
Proof.
  intros l. induction l as [|f l IH]; intros J H; [reflexivity|].
  destruct l as [|g l].
  - cbn [interleave concat_all]. now rewrite append_nil_r.
  - rewrite interleave_cons.
    rewrite IH by now apply Forall_drop.
    assert (E : nullish (at_index J 0) = true).
    { unfold at_index. destruct J as [|j J]; [reflexivity|].
      now inversion H. }
    unfold insertion. rewrite E. reflexivity.
Qed.

Lemma nullish_safe (J : list jsval) :
  Forall (fun j => nullish j = true) J -> Forall safe_item J.
Proof.
  intros H. eapply Forall_impl; [exact H|].
  intros [[]|] E; try exact Logic.I; discriminate E.
Qed.

(** A template cut in two at a fragment: the first part keeps the text
    before the cut, the second the text after it, and [d] stands between
    them. *)
Lemma interleave_merge (b : context) (f d g : string) (B : list string)
    (I2 : list jsval) :
  forall (A : list string) (I1 : list jsval),
    length I1 = length A ->
    interleave b (A ++ (f +:+ d +:+ g) :: B) (I1 ++ I2)
    = let! a := interleave b (A ++ [f]) I1 in
      let! r := interleave b (g :: B) I2 in
      Ok (a +:+ d +:+ r).
Proof.
  intros A. induction A as [|a A IH]; intros I1 H.
  - destruct I1; [|discriminate H]. cbn [app bind interleave].
    destruct B as [|g' B]; cbn [bind]; [reflexivity|].
    destruct (insertion (at_index I2 0) b); cbn [bind]; try reflexivity.
    destruct (interleave b (g' :: B) (drop 1 I2)); cbn [bind];
      try reflexivity.
    now rewrite !append_assoc.
  - destruct I1 as [|i I1]; [discriminate H|].
    injection H as H. specialize (IH I1 H).
    cbn [app].
    assert (E1 : exists x l, A ++ (f +:+ d +:+ g) :: B = x :: l)
      by (destruct A; cbn [app]; eauto).
    assert (E2 : exists x l, A ++ [f] = x :: l)
      by (destruct A; cbn [app]; eauto).
    destruct E1 as (x1 & l1 & E1). destruct E2 as (x2 & l2 & E2).
    rewrite E1, E2 in *. rewrite !interleave_cons.
    change (at_index (i :: I1 ++ I2) 0) with i.
    change (at_index (i :: I1) 0) with i.
    change (drop 1 (i :: I1 ++ I2)) with (I1 ++ I2).
    change (drop 1 (i :: I1)) with I1.
    rewrite IH.
    destruct (insertion i b); cbn [bind]; try reflexivity.
    destruct (interleave b (x2 :: l2) I1); cbn [bind]; try reflexivity.
    destruct (interleave b (g :: B) I2); cbn [bind]; try reflexivity.
    now rewrite !append_assoc.
Qed.

Lemma benign_app (a b : string) :
  benign a = true -> benign b = true -> benign (a +:+ b) = true.
Proof.
  unfold benign. intros Ha Hb. induction a as [|c a IH]; [exact Hb|].
  cbn [String.append string_forallb] in *.
  apply andb_prop in Ha. destruct Ha as [Hc Ha].
  rewrite Hc. cbn [andb]. now apply IH.
Qed.

Lemma fragment_ok_app (s : strategy) (a b : string) :
  fragment_ok s a -> fragment_ok s b -> fragment_ok s (a +:+ b).
Proof. destruct s; [apply benign_app | trivial]. Qed.

Lemma escape_app (a b : string) :
  escapeCharactersRegExp_replace (a +:+ b)
  = escapeCharactersRegExp_replace a +:+ escapeCharactersRegExp_replace b.
Proof.
  induction a as [|c a IH]; [reflexivity|].
  cbn [String.append escapeCharactersRegExp_replace].
  destruct (Ascii.eqb c backtick || Ascii.eqb c dollar);
    cbn [String.append]; now rewrite IH.
Qed.

(** ** Calls to the compiler *)



Lemma bareTemplate_call_compiles_ok (s : strategy) (T : list string)
    (I : list jsval) (h : heap) :
  Forall (fragment_ok s) T ->
  Forall (item_ok s) I ->
  exists f,
    bareTemplate_call s T I h
    = (Ok f, MkHeap (S (next_fid h)) (compiled h ++ [(T, I)]))
    /\ forall x, call f x = let! r := evaluation T I x in Ok (VStr r).
Proof.
  intros HT HI. destruct (compiles_ok s T I HT HI) as (ev & Hev & Hb).
  exists (MkFn (next_fid h) false
            (fun insert => let! r := ev insert in Ok (VStr r))).
  split.
  - unfold bareTemplate_call, mbind, record_compile, lift, new_function.
    now rewrite Hev.
  - intros x. cbn [call]. now rewrite Hb.
Qed.

Lemma template_compiles_ok (s : strategy) (T : list string)
    (I : list jsval) (h : heap) :
  Forall (fragment_ok s) T ->
  Forall (item_ok s) I ->
  exists t,
    template s false T I h
    = (Ok t, MkHeap (S (next_fid h)) (compiled h ++ [(T, I)]))
    /\ forall x, call t x = let! r := evaluation T I x in Ok (VStr r).
Proof.
  intros HT HI.
  destruct (bareTemplate_call_compiles_ok s T I h HT HI) as (f & Hf & Hcall).
  exists (setPrototypeOf_template f). split; [|exact Hcall].
  unfold template, mbind, ret. now rewrite Hf.
Qed.

Lemma function_item_ok (s : strategy) (f : fobj) : item_ok s (JF f).
Proof. destruct s; exact Logic.I. Qed.

Lemma evaluation_single (pre post : string) (item : jsval) (c : context) :
  evaluation [pre; post] [item] c
  = if String.eqb (typeof_context c) "object"
    then let! x := insertion item c in Ok (pre +:+ x +:+ post)
    else Throw (TypeError errMsg).
Proof.
  unfold evaluation. destruct (String.eqb (typeof_context c) "object");
    [|reflexivity].
  cbn [interleave]. change (at_index [item] 0) with item.
  now destruct (insertion item c).
Qed.

(** ** Templates of one fragment under the generated strategy *)

Lemma single_fragment_body (F : string) (I : list jsval) :
  generated_body [F] I
  = Ok ("return " +:+ guard_text +:+ escapeCharactersRegExp_replace F
        +:+ String backtick "}").
Proof.
  rewrite generated_body_text. cbn [generated_text].
  unfold generated_step. cbv zeta.
  replace (not_last 0 (length [F])) with false by reflexivity.
  cbn [bind]. change ("" +:+ escapeCharactersRegExp_replace F)
    with (escapeCharactersRegExp_replace F).
  now rewrite append_nil_r.
Qed.

(** When the host reads the escaped fragment as [cooked], the evaluator
    returns [cooked]. *)
Lemma generated_single (F cooked : string) (I : list jsval) :
  lex_chars InTemplate
    (escapeCharactersRegExp_replace F +:+ String backtick "}")
  = LexEnd cooked "}" ->
  exists ev,
    bareTemplate_generated [F] I = Ok ev
    /\ forall c, ev c = if String.eqb (typeof_context c) "object"
                        then Ok cooked else Throw (TypeError errMsg).
Proof.
  intros Hlex.
  unfold bareTemplate_generated. rewrite single_fragment_body. cbn [bind].
  unfold Function_, parse_body.
  set (X := escapeCharactersRegExp_replace F +:+ String backtick "}") in *.
  set (body := "return " +:+ guard_text +:+ X).
  unfold expect at 1. unfold body at 1. rewrite strip_prefix_app.
  assert (Hlen : exists n, String.length body = S n).
  { exists (String.length body - 1). unfold body. rewrite !length_append.
    simpl String.length. lia. }
  destruct Hlen as (n & ->).
  cbn [parse_arrows]. rewrite parse_arrow_guard.
  cbn [parse_template]. rewrite Hlex. cbn [bind fst snd].
  replace (expect "}" "}" _)
    with (Ok (Guarded "object" errMsg [Text cooked], "")) by reflexivity.
  cbn [bind fst snd trailer].
  eexists. split; [reflexivity|].
  intros c. cbn [run_arrow render bind]. now rewrite append_nil_r.
Qed.

Lemma lex_carriage_return (l : ascii) (s : string) :
  lex_chars InTemplate (String CR (String l s))
  = if Ascii.eqb l LF then push LF (lex_chars InTemplate s)
    else push LF (lex_chars InTemplate (String l s)).
Proof. reflexivity. Qed.

Lemma lex_after_carriage_return (g : string) :
  benign g = true ->
  lex_chars InTemplate
    (String CR (escapeCharactersRegExp_replace g +:+ String backtick "}"))
  = LexEnd (String LF (after_carriage_return g)) "}".
Proof.
  intros Hg. destruct g as [|c g].
  - reflexivity.
  - assert (Hg' : benign g = true).
    { unfold benign in *. cbn [string_forallb] in Hg.
      now apply andb_prop in Hg. }
    cbn [after_carriage_return].
    destruct (Ascii.eqb c LF) eqn:E.
    + apply Ascii.eqb_eq in E. subst c.
      change (escapeCharactersRegExp_replace (String LF g))
        with (String LF (escapeCharactersRegExp_replace g)).
      change (String LF (escapeCharactersRegExp_replace g)
              +:+ String backtick "}")
        with (String LF (escapeCharactersRegExp_replace g
                         +:+ String backtick "}")).
      rewrite lex_carriage_return. cbn [Ascii.eqb Bool.eqb LF].
      rewrite (lex_escaped _ _ Hg').
      replace (lex_chars InTemplate (String backtick "}"))
        with (LexEnd "" "}") by reflexivity.
      cbn [pushes push]. now rewrite append_nil_r.
    + assert (Hx : exists l s,
                escapeCharactersRegExp_replace (String c g)
                +:+ String backtick "}" = String l s
                /\ Ascii.eqb l LF = false).
      { cbn [escapeCharactersRegExp_replace].
        destruct (Ascii.eqb c backtick || Ascii.eqb c dollar);
          cbn [String.append]; eauto. }
      destruct Hx as (l & s & Hx & Hl).
      assert (Hlex : lex_chars InTemplate (String l s)
                     = LexEnd (String c g) "}").
      { rewrite <- Hx, (lex_escaped _ _ Hg).
        replace (lex_chars InTemplate (String backtick "}"))
          with (LexEnd "" "}") by reflexivity.
        cbn [pushes]. now rewrite append_nil_r. }
      rewrite Hx, lex_carriage_return, Hl, Hlex. reflexivity.
Qed.

Lemma trailing_backslash_generated (f : string) (I : list jsval) :
  benign f = true ->
  bareTemplate Generated [f +:+ String backslash ""] I = Throw SyntaxError.
Proof.
  intros Hf. unfold bareTemplate, bareTemplate_generated.
  rewrite single_fragment_body. cbn [bind].
  rewrite escape_app.
  change (escapeCharactersRegExp_replace (String backslash ""))
    with (String backslash "").
  rewrite append_assoc.
  set (tail := String backslash "" +:+ String backtick "}").
  unfold Function_, parse_body.
  set (body := "return " +:+ guard_text
               +:+ escapeCharactersRegExp_replace f +:+ tail).
  unfold expect at 1. unfold body at 1. rewrite strip_prefix_app.
  assert (Hlen : exists n, String.length body = S n).
  { exists (String.length body - 1). unfold body. rewrite !length_append.
    simpl String.length. lia. }
  destruct Hlen as (n & ->).
  cbn [parse_arrows]. rewrite parse_arrow_guard.
  rewrite (parse_template_escaped _ _ _ Hf).
  replace (parse_template (S n) tail)
    with (@Throw (list part * string) SyntaxError) by reflexivity.
  reflexivity.
Qed.

(** ** [if] *)




Lemma lex_escape_letter (e ch : ascii) (s : string) :
  single_escape e = Some ch ->
  lex_chars InTemplate (String backslash (String e s))
  = push ch (lex_chars InTemplate s).
Proof.
  intros H. cbn [lex_chars terminator].
  replace (Ascii.eqb backslash backtick) with false by reflexivity.
  rewrite Ascii.eqb_refl, H. reflexivity.
Qed.

Lemma escape_letter_not_escaped (e ch : ascii) (g : string) :
  single_escape e = Some ch ->
  escapeCharactersRegExp_replace (String e g)
  = String e (escapeCharactersRegExp_replace g).
Proof.
  intros H. cbn [escapeCharactersRegExp_replace].
  destruct (Ascii.eqb e backtick) eqn:E1.
  { apply Ascii.eqb_eq in E1. subst e. discriminate H. }
  destruct (Ascii.eqb e dollar) eqn:E2.
  { apply Ascii.eqb_eq in E2. subst e. discriminate H. }
  reflexivity.
Qed.

(** * The claims *)

(** C1 (what the code does). A fragment made of a backslash and the letter
    n, with no items: the generated strategy returns a line feed, the
    fallback strategy the two characters. *)
Theorem backslash_fragment_diverges :
  length ["\n"] = S (length (@nil jsval))
  /\ render_with Generated ["\n"] [] empty_object = Ok (String LF "")
  /\ render_with Fallback ["\n"] [] empty_object = Ok "\n".
Proof. split; [reflexivity|]. split; reflexivity. Qed.

(** C2 (what the code does). The tag function that [if] returns compiles
    its template before the condition is looked at: under a falsy
    condition the call to the compiler is made all the same. *)
Theorem curried_if_compiles_under_falsy_condition (s : strategy) (T : fobj)
    (h : heap) (template : list string) (items : list jsval) :
  exists tag,
    if_ s (JF T) (JV (VBool false)) (JV VUndefined) (JV VUndefined) h
    = (Ok (Tag tag), h)
    /\ compiled (snd (tag template items h))
       = compiled h ++ [(template, items)].
Proof.
  eexists. split; [reflexivity|].
  unfold bareTemplate_call, mbind, record_compile, lift, new_function,
    if_reduce, ret.
  cbn. destruct (bareTemplate s template items); reflexivity.
Qed.

(** C3, as stated. With the single fragment ["sum="] the item lies after
    the last fragment and is never read: both strategies return ["sum="],
    not ["sum=3"]. *)
Lemma wrapped_literal_single_fragment_drops_item :
  render_with Generated ["sum="] [JV (Object_ (VNum 3))] empty_object
  = Ok "sum="
  /\ render_with Fallback ["sum="] [JV (Object_ (VNum 3))] empty_object
     = Ok "sum="
  /\ render_with Generated ["sum="] [JV (Object_ (VNum 3))] empty_object
     <> Ok "sum=3"
  /\ render_with Fallback ["sum="] [JV (Object_ (VNum 3))] empty_object
     <> Ok "sum=3".
Proof.
  split; [reflexivity|]. split; [reflexivity|]. split; discriminate.
Qed.

(** C3, amended. Wrapped-literal substitution never consults the context:
    compiling the fragments ["sum="] and [""] with the item [Object(3)]
    gives, under either strategy, an evaluator that returns ["sum=3"] on
    every object-like context. *)
Theorem wrapped_literal_ignores_context (s : strategy) (c : context) :
  typeof_context c = "object" ->
  render_with s ["sum="; ""] [JV (Object_ (VNum 3))] c = Ok "sum=3".
Proof.
  intros Hc. change (Object_ (VNum 3)) with (VObj (Box (BNum 3))).
  rewrite (wrapped_literal_general s "sum=" "" (Box (BNum 3)) c);
    try assumption; destruct s; reflexivity || exact Logic.I.
Qed.

(** C3, amended, on the context of the claim, [{}], and on a context that
    holds a property. *)
Lemma wrapped_literal_example :
  render_with Generated ["sum="; ""] [JV (Object_ (VNum 3))] empty_object
  = Ok "sum=3"
  /\ render_with Fallback ["sum="; ""] [JV (Object_ (VNum 3))] empty_object
     = Ok "sum=3"
  /\ render_with Generated ["sum="; ""] [JV (Object_ (VNum 3))]
       (CtxObject {[ "sum" := VNum 7 ]})
     = Ok "sum=3".
Proof.
  split; [|split].
  - exact (wrapped_literal_ignores_context Generated empty_object eq_refl).
  - exact (wrapped_literal_ignores_context Fallback empty_object eq_refl).
  - exact (wrapped_literal_ignores_context Generated
             (CtxObject {[ "sum" := VNum 7 ]}) eq_refl).
Defined.

(** C4 (what the code does). The backslash is not escaped, so the host
    reads it with the next character as an escape sequence: the fragment
    [C:\temp] is embedded unchanged and rendered with a tab in place of
    backslash-t. *)
Theorem backslash_is_not_escaped :
  escapeCharactersRegExp_replace "C:\temp" = "C:\temp"
  /\ render_with Generated ["C:\temp"] [] empty_object
     = Ok ("C:" +:+ String TAB "emp")
  /\ render_with Fallback ["C:\temp"] [] empty_object = Ok "C:\temp".
Proof. split; [reflexivity|]. split; reflexivity. Qed.

(** C5. For a truthy condition, [T.if(cond, d, C)] returns a new Template
    (a fresh function object, other than [T] and [C], whose prototype is
    [template.prototype]) that computes [T(x) + d + C(x)]: the condition
    is not looked at again, [T] then [C] are both called on every render,
    their strings are joined around [d], and an exception of either
    surfaces.  With the delimiter omitted, or with the continuation in the
    delimiter's place, the delimiter is one space. *)
Theorem if_truthy_chains (s : strategy) (T C : fobj) (cond : jsval)
    (d : string) (h : heap) :
  truthy cond = true ->
  exists t,
    if_ s (JF T) cond (JV (VStr d)) (JF C) h
    = (Ok (Chained t), MkHeap (S (next_fid h)) (compiled h))
    /\ fid t = next_fid h
    /\ (fid T < next_fid h -> fid C < next_fid h -> t <> T /\ t <> C)
    /\ is_template t = true
    /\ (forall x, call t x = chained T C d x)
    /\ (forall x s1 s2,
          call T x = Ok (VStr s1) -> call C x = Ok (VStr s2) ->
          call t x = Ok (VStr (s1 +:+ d +:+ s2)))
    /\ (forall x e, call T x = Throw e -> call t x = Throw e)
    /\ (forall x s1 e,
          call T x = Ok (VStr s1) -> call C x = Throw e ->
          call t x = Throw e)
    /\ (forall other,
          if_ s (JF T) cond (JV VUndefined) (JF C) h
          = if_ s (JF T) cond (JV (VStr " ")) (JF C) h
          /\ if_ s (JF T) cond (JF C) other h
             = if_ s (JF T) cond (JV (VStr " ")) (JF C) h).
Proof.
  intros Hc.
  exists (MkFn (next_fid h) true (chained T C d)).
  split; [|split; [|split; [|split; [|split; [|split; [|split; [|split]]]]]]].
  - unfold if_, if_reduce, mbind, new_function, ret. cbn. now rewrite Hc.
  - reflexivity.
  - intros HT HC. split; intros E; [rewrite <- E in HT | rewrite <- E in HC];
      cbn [fid] in *; lia.
  - reflexivity.
  - reflexivity.
  - intros x s1 s2 HT HC. cbn [call]. unfold chained. rewrite HT, HC.
    cbn [bind]. rewrite add_strings. cbn [bind]. rewrite add_strings.
    now rewrite append_assoc.
  - intros x e HT. cbn [call]. unfold chained. now rewrite HT.
  - intros x s1 e HT HC. cbn [call]. unfold chained. rewrite HT, HC.
    reflexivity.
  - intros other. split; reflexivity.
Qed.

Lemma if_truthy_witness :
  exists t,
    if_ Fallback (JF (constantly 0 "ABC")) (JV (VBool true))
        (JV (VStr "")) (JF (constantly 1 "123")) (MkHeap 2 [])
    = (Ok (Chained t), MkHeap 3 [])
    /\ call t empty_object = Ok (VStr "ABC123").
Proof.
  destruct (if_truthy_chains Fallback (constantly 0 "ABC") (constantly 1 "123")
              (JV (VBool true)) "" (MkHeap 2 []) eq_refl)
    as (t & Hif & _ & _ & _ & _ & Hcat & _).
  exists t. split; [exact Hif|].
  exact (Hcat empty_object "ABC" "123" eq_refl eq_refl).
Defined.

(** C6 (what the code does). Under the generated strategy and a falsy
    condition, applying the tag function to a fragment the host cannot
    parse throws instead of returning the receiver. *)
Theorem curried_falsy_if_can_throw (T : fobj) (h : heap) :
  exists tag,
    if_ Generated (JF T) (JV (VBool false)) (JV VUndefined) (JV VUndefined) h
    = (Ok (Tag tag), h)
    /\ fst (tag ["C:\users"] [] h) = Throw SyntaxError
    /\ fst (tag ["C:/users"] [] h) = Ok T.
Proof.
  eexists. split; [reflexivity|]. split; reflexivity.
Qed.

(** C7. A continuation gated by a falsy condition is never called at
    render time: whatever the continuation [C] does when called (it may
    throw on every call), and whether it is passed after a delimiter or in
    the delimiter's place, [if] returns a Template whose rendering is the
    rendering of the receiver [T] alone, for it is [T]. *)
Theorem if_falsy_never_calls_continuation (s : strategy) (T C : fobj)
    (cond d : jsval) (h : heap) :
  truthy cond = false ->
  exists t,
    if_ s (JF T) cond d (JF C) h = (Ok (Chained t), h)
    /\ if_ s (JF T) cond (JF C) d h = (Ok (Chained t), h)
    /\ t = T
    /\ forall x, call t x = call T x.
Proof.
  intros Hc. exists T. split; [|split; [|split]].
  - unfold if_, if_reduce, mbind, ret.
    destruct d as [[]|D]; cbn; now rewrite Hc.
  - unfold if_, if_reduce, mbind, ret. cbn. now rewrite Hc.
  - reflexivity.
  - reflexivity.
Qed.

(** C7 at a continuation that throws whenever it is called: rendering the
    result of [if(false, ", ", thrower)] on [{}] returns the receiver's
    string. *)
Lemma if_falsy_witness :
  (forall x, call (thrower 1) x = Throw (UserError "continuation called"))
  /\ exists t,
       if_ Generated (JF (constantly 0 "ABC")) (JV (VBool false))
         (JV (VStr ", ")) (JF (thrower 1)) empty_heap
       = (Ok (Chained t), empty_heap)
       /\ call t empty_object = Ok (VStr "ABC").
Proof.
  split; [reflexivity|].
  destruct (if_falsy_never_calls_continuation Generated (constantly 0 "ABC")
              (thrower 1) (JV (VBool false)) (JV (VStr ", ")) empty_heap
              eq_refl)
    as (t & Hif & _ & _ & Hcall).
  exists t. split; [exact Hif|].
  rewrite Hcall. reflexivity.
Defined.

(** C8 (what the code does). A fragment that ends the template literal
    early makes the generated program return a second function, which
    checks nothing: called with a number or a string it returns. *)
Theorem injected_evaluator_skips_context_check :
  generated_body [injection] []
  = Ok (generated_prelude
        +:+ String backslash (injection +:+ String backtick "}"))
  /\ render_with Generated [injection] [] (CtxNum 5) = Ok "x"
  /\ render_with Generated [injection] [] (CtxStr "plain") = Ok "x"
  /\ render_with Fallback [injection] [] (CtxNum 5)
     = Throw (TypeError errMsg).
Proof. split; [reflexivity|]. split; [reflexivity|]. split; reflexivity. Qed.

(** C9 (what the code does). The number [-Infinity] as a key: it is not
    an identifier, so the generated strategy quotes it with
    [JSON.stringify], which writes [null] for it, and the evaluator reads
    the property ["null"] of the context; the fallback strategy reads the
    property ["-Infinity"].  A key is not read either when the fragment
    before it ends in a backslash: the substitution is then text. *)
Theorem negative_infinity_key_reads_null :
  access 0 (JV (VNonFinite NegInfinity)) = Ok "b[null]"
  /\ render_with Generated ["a "; " b"] [JV (VNonFinite NegInfinity)]
       (CtxObject {[ "-Infinity" := VStr "VAL" ]})
     = Ok "a  b"
  /\ render_with Generated ["a "; " b"] [JV (VNonFinite NegInfinity)]
       (CtxObject {[ "null" := VStr "other" ]})
     = Ok "a other b"
  /\ render_with Fallback ["a "; " b"] [JV (VNonFinite NegInfinity)]
       (CtxObject {[ "-Infinity" := VStr "VAL" ]})
     = Ok "a VAL b"
  /\ render_with Generated ["a\"; "b"] [JV (VStr "k")]
       (CtxObject {[ "k" := VStr "VAL" ]})
     = Ok ("a${b.k" +:+ or_empty_close +:+ "b")
  /\ render_with Fallback ["a\"; "b"] [JV (VStr "k")]
       (CtxObject {[ "k" := VStr "VAL" ]})
     = Ok "a\VALb".
Proof.
  split; [reflexivity|]. split; [reflexivity|]. split; [reflexivity|].
  split; [reflexivity|]. split; reflexivity.
Qed.

(** C10 (what the code does). With [null] as context and no items, the
    generated strategy returns the cooked fragment, not the fragment: a tab
    for backslash-t. *)
Theorem null_context_cooked_fragment :
  render_with Generated ["a\tb"] [] CtxNull = Ok ("a" +:+ String TAB "b")
  /\ render_with Fallback ["a\tb"] [] CtxNull = Ok "a\tb".
Proof. split; reflexivity. Qed.

(** * Further properties *)

(** X1. The two strategies agree, up to the string returned or the
    exception raised, on every template whose fragments contain neither a
    backslash nor a carriage return, for all items (integer keys being host
    numbers) and every context, object-like or not. *)
Theorem strategies_agree_without_backslash (T : list string)
    (I : list jsval) (b : context) :
  Forall (fun f => benign f = true) T ->
  Forall safe_item I ->
  render_with Generated T I b = render_with Fallback T I b.
Proof. apply generated_matches_fallback. Qed.

Lemma strategies_agree_example :
  render_with Generated ["a$"; "`b${"; "-"; ""]
    [JV (VStr "x y"); JV (VNum (-5)); JF (constantly 0 "seven")]
    (CtxObject {[ "x y" := VStr "1"; "-5" := VBool true ]})
  = render_with Fallback ["a$"; "`b${"; "-"; ""]
      [JV (VStr "x y"); JV (VNum (-5)); JF (constantly 0 "seven")]
      (CtxObject {[ "x y" := VStr "1"; "-5" := VBool true ]})
  /\ render_with Fallback ["a$"; "`b${"; "-"; ""]
       [JV (VStr "x y"); JV (VNum (-5)); JF (constantly 0 "seven")]
       (CtxObject {[ "x y" := VStr "1"; "-5" := VBool true ]})
     = Ok "a$1`b${true-seven".
Proof.
  split; [|reflexivity].
  apply strategies_agree_without_backslash.
  - repeat constructor.
  - repeat constructor. unfold safe_integer. vm_compute. discriminate.
Defined.

(** X2. Escaping the backtick and the dollar sign is enough for a
    fragment without backslash and carriage return: the host cooks the escaped text
    back into the fragment, and a template made of that fragment alone
    renders as the fragment. *)
Theorem escaped_fragment_is_cooked_back (f : string) :
  benign f = true ->
  (forall rest,
     lex_chars InTemplate
       (escapeCharactersRegExp_replace f +:+ String backtick rest)
     = LexEnd f rest)
  /\ (forall props,
        render_with Generated [f] [] (CtxObject props) = Ok f).
Proof.
  intros Hf. split.
  - intros rest. rewrite (lex_escaped _ _ Hf).
    replace (lex_chars InTemplate (String backtick rest)) with (LexEnd "" rest)
      by reflexivity.
    cbn [pushes]. now rewrite append_nil_r.
  - intros props. rewrite generated_matches_fallback.
    + unfold render_with, bareTemplate, bareTemplate_fallback. cbn [bind].
      rewrite fallback_evaluator_text. cbn [typeof_context].
      replace (String.eqb "object" "object") with true by reflexivity.
      rewrite fallback_text_no_items. cbn [concat_all].
      now rewrite append_nil_r.
    + repeat constructor; assumption.
    + constructor.
Qed.

Lemma escaped_fragment_example :
  lex_chars InTemplate
    (escapeCharactersRegExp_replace "cost: $5 `net` ${x}" +:+ String backtick "}")
  = LexEnd "cost: $5 `net` ${x}" "}"
  /\ render_with Generated ["cost: $5 `net` ${x}"] [] empty_object
     = Ok "cost: $5 `net` ${x}".
Proof.
  destruct (escaped_fragment_is_cooked_back "cost: $5 `net` ${x}" eq_refl)
    as [Hlex Hrender].
  split; [exact (Hlex "}") | exact (Hrender ∅)].
Defined.



(** X4. [null] passes the context check of both strategies: a template
    without items, applied to [null], returns its fragments joined (under
    the generated strategy, for fragments without backslash and carriage
    return). *)
Theorem null_context_is_accepted (s : strategy) (T : list string) :
  Forall (fragment_ok s) T ->
  render_with s T [] CtxNull = Ok (concat_all T).
Proof.
  intros HT.
  assert (HF : render_with Fallback T [] CtxNull = Ok (concat_all T)).
  { unfold render_with, bareTemplate, bareTemplate_fallback. cbn [bind].
    rewrite fallback_evaluator_text. cbn [typeof_context].
    replace (String.eqb "object" "object") with true by reflexivity.
    apply fallback_text_no_items. }
  destruct s; [|exact HF].
  rewrite generated_matches_fallback; [exact HF | exact HT | constructor].
Qed.

Lemma null_context_example :
  render_with Generated ["plain text"] [] CtxNull = Ok "plain text"
  /\ render_with Fallback ["a\tb"] [] CtxNull = Ok "a\tb".
Proof.
  split.
  - apply (null_context_is_accepted Generated). repeat constructor.
  - apply (null_context_is_accepted Fallback). repeat constructor.
Defined.

(** X5. Under the fallback strategy the tag function of a falsy [if]
    returns the receiver itself, for every template it is applied to. *)
Theorem curried_falsy_if_returns_receiver_under_fallback (T : fobj)
    (cond d : jsval) (h : heap) (template : list string)
    (items : list jsval) :
  truthy cond = false ->
  String.eqb (typeof d) "function" = false ->
  exists tag,
    if_ Fallback (JF T) cond d (JV VUndefined) h = (Ok (Tag tag), h)
    /\ fst (tag template items h) = Ok T.
Proof.
  intros Hc Hd.
  destruct d as [[]|D]; try discriminate Hd;
    (eexists; split; [reflexivity|];
     unfold bareTemplate_call, mbind, record_compile, lift, new_function,
       if_reduce, ret; cbn; now rewrite Hc).
Qed.

Lemma curried_falsy_if_example :
  exists tag,
    if_ Fallback (JF (constantly 0 "ABC")) (JV (VNum 0)) (JV (VStr ", "))
      (JV VUndefined) empty_heap
    = (Ok (Tag tag), empty_heap)
    /\ fst (tag ["C:\users"] [] empty_heap) = Ok (constantly 0 "ABC").
Proof.
  exact (curried_falsy_if_returns_receiver_under_fallback
           (constantly 0 "ABC") (JV (VNum 0)) (JV (VStr ", ")) empty_heap
           ["C:\users"] [] eq_refl eq_refl).
Defined.

(** X6. Two fragments with a function item between them, on an
    object-like context: the function is called with the render context on
    every render, and what it returns is inserted between the fragments:
    its string coercion, or nothing for [undefined] and [null]; an
    exception it throws surfaces.  Stated for all fragments under the
    fallback strategy, and for fragments without backslash and carriage
    return under the generated strategy. *)
Theorem callable_item_receives_context (s : strategy) (pre post : string)
    (f : fobj) (c : context) :
  fragment_ok s pre -> fragment_ok s post ->
  typeof_context c = "object" ->
  render_with s [pre; post] [JF f] c
  = let! v := call f c in
    let! x := interpolate (JV v) in
    Ok (pre +:+ x +:+ post).
Proof.
  intros Hpre Hpost Hc.
  rewrite single_item; try assumption.
  - unfold contribution. cbn [typeof call_js]. 
    replace (String.eqb "function" "object") with false by reflexivity.
    replace (String.eqb "function" "function") with true by reflexivity.
    now destruct (call f c).
  - exact Logic.I.
  - rewrite Hc. reflexivity.
  - reflexivity.
Qed.

Lemma callable_item_example :
  render_with Generated ["say "; ""]
    [JF (MkFn 0 false (fun ctx => get ctx "name"))]
    (CtxObject {[ "name" := VStr "Al" ]})
  = Ok "say Al".
Proof.
  exact (callable_item_receives_context Generated "say " ""
           (MkFn 0 false (fun ctx => get ctx "name"))
           (CtxObject {[ "name" := VStr "Al" ]}) eq_refl eq_refl eq_refl).
Defined.



(** The fuel [parse_body] starts with is never the reason for its answer:
    any larger amount gives the same. *)
Lemma parse_body_fuel (fuel : nat) (s : string) :
  String.length s <= fuel ->
  expect "return " s (fun r =>
    let! f := parse_arrows fuel r in
    if trailer (snd f) then Ok (fst f) else Unsupported)
  = parse_body s.
Proof.
  intros H. unfold parse_body, expect.
  destruct (strip_prefix "return " s) as [r|] eqn:E; [|reflexivity].
  apply strip_prefix_length in E.
  rewrite (parse_arrows_fuel fuel (String.length s) r) by lia.
  reflexivity.
Qed.

(** X8. Two fragments with a wrapped literal (an object item) between
    them, on an object-like context: the evaluator returns the first
    fragment, the string coercion of the object, and the second fragment,
    whatever the context holds.  Stated for all fragments under the
    fallback strategy, and for fragments without backslash and carriage
    return under the generated strategy. *)
Theorem wrapped_literal_between_fragments (s : strategy) (pre post : string)
    (o : object) (c : context) :
  fragment_ok s pre -> fragment_ok s post ->
  typeof_context c = "object" ->
  render_with s [pre; post] [JV (VObj o)] c
  = let! x := to_string (VObj o) in Ok (pre +:+ x +:+ post).
Proof. apply wrapped_literal_general. Qed.

Lemma wrapped_literal_between_fragments_example :
  render_with Generated ["1 + 2 = "; "."] [JV (Object_ (VNum 3))] CtxNull
  = Ok "1 + 2 = 3."
  /\ render_with Fallback ["<"; ">"]
       [JV (VObj (Opaque (Throw (UserError "toString"))))] empty_object
     = Throw (UserError "toString").
Proof.
  split.
  - exact (wrapped_literal_between_fragments Generated "1 + 2 = " "."
             (Box (BNum 3)) CtxNull eq_refl eq_refl eq_refl).
  - exact (wrapped_literal_between_fragments Fallback "<" ">"
             (Opaque (Throw (UserError "toString"))) empty_object
             Logic.I Logic.I eq_refl).
Defined.

(** X9. Calling [template] with [new] raises TypeError('Illegal
    constructor.') before anything is compiled, and [if] on a receiver
    that is not a function raises TypeError('this must be callable.'),
    whatever the other arguments are. *)
Theorem misuse_is_rejected (s : strategy) (strings : list string)
    (items : list jsval) (receiver : value) (cond d callback : jsval)
    (h : heap) :
  template s true strings items h
  = (Throw (TypeError "Illegal constructor."), h)
  /\ if_ s (JV receiver) cond d callback h
     = (Throw (TypeError "this must be callable."), h).
Proof. split; reflexivity. Qed.



(** X11. Only the items that stand between two fragments count: two item
    lists that agree at every index below the number of fragments less one
    give the same result on every context.  Items past the last fragment
    are never looked at, and a missing item is an [undefined] one.  Stated
    for all fragments and items under the fallback strategy; under the
    generated strategy for fragments without backslash and carriage return
    and for item lists whose numeric keys are integers of magnitude at
    most [2^53 - 1], NaN or Infinity. *)
Theorem only_items_between_fragments_count (s : strategy) (T : list string)
    (I I' : list jsval) (c : context) :
  Forall (fragment_ok s) T ->
  Forall (item_ok s) I -> Forall (item_ok s) I' ->
  (forall k, S k < length T -> at_index I k = at_index I' k) ->
  render_with s T I c = render_with s T I' c.
Proof.
  intros HT HI HI' H.
  rewrite !render_with_evaluation_ok by assumption.
  unfold evaluation. destruct (String.eqb (typeof_context c) "object");
    [|reflexivity].
  now apply interleave_agree.
Qed.

Lemma only_items_between_fragments_example :
  render_with Generated ["a"; "b"] [JV (VStr "k"); JF (thrower 0)] empty_object
  = render_with Generated ["a"; "b"] [JV (VStr "k")] empty_object
  /\ render_with Fallback ["a"; "b"; "c"] [JV (VStr "k")] empty_object
     = render_with Fallback ["a"; "b"; "c"] [JV (VStr "k"); JV VUndefined]
         empty_object.
Proof.
  split.
  - apply only_items_between_fragments_count; repeat constructor.
    intros k Hk. destruct k as [|k]; [reflexivity | simpl in Hk; lia].
  - apply only_items_between_fragments_count; repeat constructor.
    intros k Hk. destruct k as [|[|k]]; [reflexivity | reflexivity |
      simpl in Hk; lia].
Defined.

(** X12. Items that are [undefined] or [null] insert nothing: when every
    item is so, the evaluator returns the fragments joined, on every
    object-like context, [null] included.  Stated for all fragments under
    the fallback strategy, and for fragments without backslash and carriage
    return under the generated strategy. *)
Theorem nullish_items_are_skipped (s : strategy) (T : list string)
    (I : list jsval) (c : context) :
  Forall (fragment_ok s) T ->
  Forall (fun j => nullish j = true) I ->
  typeof_context c = "object" ->
  render_with s T I c = Ok (concat_all T).
Proof.
  intros HT HI Hc.
  rewrite render_with_evaluation; [|exact HT | now apply nullish_safe].
  unfold evaluation. rewrite Hc.
  replace (String.eqb "object" "object") with true by reflexivity.
  now apply interleave_nullish.
Qed.

Lemma nullish_items_example :
  render_with Generated ["hello "; " world"; "!"] [JV VNull; JV VUndefined]
    (CtxObject {[ "0" := VNum 1 ]})
  = Ok "hello  world!"
  /\ render_with Fallback ["a\tb"; "c"] [] CtxNull = Ok "a\tbc".
Proof.
  split.
  - apply (nullish_items_are_skipped Generated); repeat constructor.
  - apply (nullish_items_are_skipped Fallback); repeat constructor.
Defined.



(** X14. A Template used as the item between two fragments renders in
    place, on the context of the outer render: the outer evaluator returns
    the first fragment, what the inner template returns on that context,
    and the second fragment; an exception of the inner template surfaces.
    Stated for all fragments and items under the fallback strategy; under
    the generated strategy for outer and inner fragments without backslash
    and carriage return and for inner items whose numeric keys are integers
    of magnitude at most [2^53 - 1], NaN or Infinity. *)
Theorem template_item_renders_in_place (s : strategy) (pre post : string)
    (T : list string) (I : list jsval) (c : context) (h : heap) :
  fragment_ok s pre -> fragment_ok s post ->
  Forall (fragment_ok s) T ->
  Forall (item_ok s) I ->
  exists t h',
    template s false T I h = (Ok t, h')
    /\ render_with s [pre; post] [JF t] c
       = let! r := render_with s T I c in Ok (pre +:+ r +:+ post).
Proof.
  intros Hpre Hpost HT HI.
  destruct (template_compiles_ok s T I h HT HI) as (t & Ht & Hcall).
  exists t. eexists. split; [exact Ht|].
  rewrite !render_with_evaluation_ok;
    [| assumption | assumption | repeat constructor; assumption
     | repeat constructor; apply function_item_ok].
  rewrite evaluation_single.
  unfold insertion, contribution. cbn [nullish typeof call_js].
  replace (String.eqb "function" "object") with false by reflexivity.
  replace (String.eqb "function" "function") with true by reflexivity.
  rewrite Hcall. unfold evaluation.
  destruct (String.eqb (typeof_context c) "object"); [|reflexivity].
  now destruct (interleave c T I).
Qed.

Lemma template_item_example :
  exists t h',
    template Generated false ["Hello "; " world!"] [JV (VStr "adjective")]
      empty_heap
    = (Ok t, h')
    /\ render_with Generated ["He said: "; "."] [JF t]
         (CtxObject {[ "adjective" := VStr "shiny" ]})
       = Ok "He said: Hello shiny world!.".
Proof.
  destruct (template_item_renders_in_place Generated "He said: " "."
              ["Hello "; " world!"] [JV (VStr "adjective")]
              (CtxObject {[ "adjective" := VStr "shiny" ]}) empty_heap)
    as (t & h' & Ht & Hr); try (repeat constructor).
  exists t, h'. split; [exact Ht|].
  rewrite Hr. reflexivity.
Defined.



(** X16. Appending a literal with [if] under a truthy condition is
    writing one literal: [template`A${x}f`.if(c, d)`g${y}B`], with a string
    delimiter [d], renders on every context as the template whose
    fragments are those of the first literal, then [f + d + g] in one
    piece, then those of the second, and whose items are the items of both
    (the first literal having one item fewer than fragments, as tagged
    literals do).  Stated for all fragments, delimiters and items under the
    fallback strategy; under the generated strategy for fragments and a
    delimiter without backslash and carriage return and for items whose
    numeric keys are integers of magnitude at most [2^53 - 1], NaN or
    Infinity. *)
Theorem chained_literal_is_one_literal (s : strategy) (A : list string)
    (f d g : string) (B : list string) (I1 I2 : list jsval) (cond : jsval)
    (h : heap) :
  truthy cond = true ->
  length I1 = length A ->
  Forall (fragment_ok s) (A ++ [f]) ->
  fragment_ok s d ->
  Forall (fragment_ok s) (g :: B) ->
  Forall (item_ok s) I1 ->
  Forall (item_ok s) I2 ->
  exists t1 h1 tag t h2,
    template s false (A ++ [f]) I1 h = (Ok t1, h1)
    /\ if_ s (JF t1) cond (JV (VStr d)) (JV VUndefined) h1
       = (Ok (Tag tag), h1)
    /\ tag (g :: B) I2 h1 = (Ok t, h2)
    /\ forall x,
         call t x
         = let! r := render_with s (A ++ (f +:+ d +:+ g) :: B) (I1 ++ I2) x in
           Ok (VStr r).
Proof.
  intros Hc Hlen HT1 Hd HT2 HI1 HI2.
  destruct (template_compiles_ok s (A ++ [f]) I1 h HT1 HI1)
    as (t1 & Ht1 & Hcall1).
  destruct (bareTemplate_call_compiles_ok s (g :: B) I2
              (MkHeap (S (next_fid h)) (compiled h ++ [(A ++ [f], I1)]))
              HT2 HI2)
    as (next & Hnext & Hcall2).
  exists t1. eexists. eexists. eexists. eexists.
  split; [exact Ht1|]. split; [reflexivity|].
  cbv beta. unfold mbind at 1. rewrite Hnext.
  unfold if_reduce. rewrite Hc. unfold mbind, new_function, ret.
  split; [reflexivity|].
  intros x. cbn [call setPrototypeOf_template call_js].
  rewrite Hcall1, Hcall2.
  rewrite render_with_evaluation_ok.
  - unfold evaluation.
    destruct (String.eqb (typeof_context x) "object"); [|reflexivity].
    rewrite (interleave_merge x f d g B I2 A I1 Hlen).
    destruct (interleave x (A ++ [f]) I1) as [a| |]; cbn [bind];
      try reflexivity.
    change (String.eqb (typeof (JV (VStr d))) "function") with false.
    cbv iota. rewrite add_strings. cbn [bind].
    destruct (interleave x (g :: B) I2) as [r| |]; cbn [bind];
      try reflexivity.
    rewrite add_strings. now rewrite append_assoc.
  - apply Forall_app in HT1. destruct HT1 as [HA Hf].
    inversion Hf as [|? ? Hf' _]; subst.
    inversion HT2 as [|? ? Hg HB]; subst.
    apply Forall_app. split; [exact HA|].
    constructor; [|exact HB].
    apply fragment_ok_app; [exact Hf'|]. now apply fragment_ok_app.
  - apply Forall_app. now split.
Qed.

Lemma chained_literal_example :
  exists t1 h1 tag t h2,
    template Generated false ["length("; ") <= "; ""]
      [JV (VNum 0); JV (Object_ (VNum 32))] empty_heap
    = (Ok t1, h1)
    /\ if_ Generated (JF t1) (JV (VBool true)) (JV (VStr " AND "))
         (JV VUndefined) h1
       = (Ok (Tag tag), h1)
    /\ tag [""; " REGEXP "; ""] [JV (VNum 0); JV (Object_ (VStr "'ab'"))] h1
       = (Ok t, h2)
    /\ call t (CtxObject {[ "0" := VStr "col" ]})
       = Ok (VStr "length(col) <= 32 AND col REGEXP 'ab'").
Proof.
  destruct (chained_literal_is_one_literal Generated ["length("; ") <= "]
              "" " AND " "" [" REGEXP "; ""]
              [JV (VNum 0); JV (Object_ (VNum 32))]
              [JV (VNum 0); JV (Object_ (VStr "'ab'"))]
              (JV (VBool true)) empty_heap eq_refl eq_refl)
    as (t1 & h1 & tag & t & h2 & Ht1 & Hif & Htag & Hcall).
  - repeat constructor.
  - reflexivity.
  - repeat constructor.
  - repeat constructor. unfold safe_integer. vm_compute. discriminate.
  - repeat constructor. unfold safe_integer. vm_compute. discriminate.
  - exists t1, h1, tag, t, h2.
    split; [exact Ht1|]. split; [exact Hif|]. split; [exact Htag|].
    rewrite Hcall. reflexivity.
Defined.



(** X18. [null] passes the context check but has no properties: two
    fragments with a string key, or with an integer key of magnitude at
    most [2^53 - 1], between them, applied to [null], fail with the
    TypeError of the host, not with the library's own.  Stated for all
    fragments under the fallback strategy, and for fragments without
    backslash and carriage return under the generated strategy. *)
Theorem key_on_null_context_is_a_host_error (s : strategy)
    (pre post : string) :
  fragment_ok s pre -> fragment_ok s post ->
  (forall k : string,
     render_with s [pre; post] [JV (VStr k)] CtxNull = Throw EngineTypeError)
  /\ (forall n : Z, safe_integer n ->
        render_with s [pre; post] [JV (VNum n)] CtxNull
        = Throw EngineTypeError).
Proof.
  intros Hpre Hpost. split.
  - intros k. rewrite single_item; try assumption; reflexivity.
  - intros n Hn. rewrite single_item; try assumption; reflexivity.
Qed.

Lemma key_on_null_context_example :
  render_with Generated ["a "; " b"] [JV (VStr "x")] CtxNull
  = Throw EngineTypeError
  /\ render_with Fallback ["a "; " b"] [JV (VNum 0)] CtxNull
     = Throw EngineTypeError.
Proof.
  split.
  - exact (proj1 (key_on_null_context_is_a_host_error Generated "a " " b"
                    eq_refl eq_refl) "x").
  - refine (proj2 (key_on_null_context_is_a_host_error Fallback "a " " b"
                     Logic.I Logic.I) 0%Z _).
    unfold safe_integer. vm_compute. discriminate.
Defined.

(** X19. A boolean item is a key as well: between two fragments, on an
    object context, [true] and [false] read the properties ["true"] and
    ["false"], [false] being neither [undefined] nor [null]; the evaluator
    inserts the string coercion of the value read, or nothing when it is
    [undefined] or [null].  Stated for all fragments under the fallback
    strategy, and for fragments without backslash and carriage return under
    the generated strategy. *)
Theorem boolean_item_is_a_key (s : strategy) (pre post : string) (b : bool)
    (props : gmap string value) :
  fragment_ok s pre -> fragment_ok s post ->
  render_with s [pre; post] [JV (VBool b)] (CtxObject props)
  = let! c := key_substitution
                (lookup props (if b then "true" else "false")) in
    Ok (pre +:+ c +:+ post).
Proof.
  intros Hpre Hpost.
  destruct b; apply key_substitution_general;
    try assumption; reflexivity || exact Logic.I.
Qed.

Lemma boolean_item_example :
  render_with Generated ["is "; "!"] [JV (VBool false)]
    (CtxObject {[ "false" := VStr "off" ]})
  = Ok "is off!"
  /\ render_with Fallback ["is "; "!"] [JV (VBool true)] empty_object
     = Ok "is !".
Proof.
  split.
  - exact (boolean_item_is_a_key Generated "is " "!" false
             {[ "false" := VStr "off" ]} eq_refl eq_refl).
  - exact (boolean_item_is_a_key Fallback "is " "!" true ∅ Logic.I Logic.I).
Defined.

(** X20. A fragment that ends in a backslash, the rest of it holding
    neither backslash nor carriage return, cannot be compiled by the
    generated strategy: [template] throws a SyntaxError at the call, after
    the compiler was entered, whatever the items are; the fallback
    strategy returns the fragment unchanged. *)
Theorem trailing_backslash_does_not_compile (f : string) (I : list jsval)
    (h : heap) (props : gmap string value) :
  benign f = true ->
  template Generated false [f +:+ String backslash ""] I h
  = (Throw SyntaxError,
     MkHeap (next_fid h)
       (compiled h ++ [([f +:+ String backslash ""], I)]))
  /\ render_with Fallback [f +:+ String backslash ""] I (CtxObject props)
     = Ok (f +:+ String backslash "").
Proof.
  intros Hf. split.
  - unfold template, bareTemplate_call, mbind, record_compile, lift.
    now rewrite (trailing_backslash_generated f I Hf).
  - unfold render_with, bareTemplate, bareTemplate_fallback. cbn [bind].
    rewrite fallback_evaluator_evaluation. reflexivity.
Qed.

Lemma trailing_backslash_example :
  template Generated false ["C:\"] [] empty_heap
  = (Throw SyntaxError, MkHeap 0 [(["C:\"], [])])
  /\ render_with Fallback ["C:\"] [] (CtxObject ∅) = Ok "C:\".
Proof.
  exact (trailing_backslash_does_not_compile "C:" [] empty_heap ∅ eq_refl).
Defined.

(** X21. The generated strategy turns a carriage return in a fragment
    into a line feed, and a carriage return followed by a line feed into
    one line feed, as the host does for every template literal; the
    fallback strategy returns the fragment unchanged. *)
Theorem carriage_return_becomes_line_feed (f g : string) (I : list jsval)
    (props : gmap string value) :
  benign f = true -> benign g = true ->
  render_with Generated [f +:+ String CR g] I (CtxObject props)
  = Ok (f +:+ String LF (after_carriage_return g))
  /\ render_with Fallback [f +:+ String CR g] I (CtxObject props)
     = Ok (f +:+ String CR g).
Proof.
  intros Hf Hg. split.
  - destruct (generated_single (f +:+ String CR g)
                (f +:+ String LF (after_carriage_return g)) I)
      as (ev & Hev & Hc).
    + rewrite escape_app.
      change (escapeCharactersRegExp_replace (String CR g))
        with (String CR (escapeCharactersRegExp_replace g)).
      rewrite append_assoc.
      change (String CR (escapeCharactersRegExp_replace g)
              +:+ String backtick "}")
        with (String CR (escapeCharactersRegExp_replace g
                         +:+ String backtick "}")).
      rewrite (lex_escaped _ _ Hf), (lex_after_carriage_return _ Hg).
      reflexivity.
    + unfold render_with, bareTemplate. rewrite Hev. cbn [bind].
      now rewrite Hc.
  - unfold render_with, bareTemplate, bareTemplate_fallback. cbn [bind].
    rewrite fallback_evaluator_evaluation. reflexivity.
Qed.

Lemma carriage_return_example :
  render_with Generated [String "a" (String CR (String LF "b"))] []
    empty_object
  = Ok (String "a" (String LF "b"))
  /\ render_with Fallback [String "a" (String CR (String LF "b"))] []
       empty_object
     = Ok (String "a" (String CR (String LF "b"))).
Proof.
  exact (carriage_return_becomes_line_feed "a" (String LF "b") [] ∅
           eq_refl eq_refl).
Defined.

(** X22. The generated strategy reads a backslash followed by one of the
    escape letters [n], [r], [t], [b], [f], [v] as the character the pair
    stands for in the host language; the fallback strategy returns both
    characters. *)
Theorem escape_letter_is_cooked (f g : string) (e ch : ascii)
    (I : list jsval) (props : gmap string value) :
  benign f = true -> benign g = true ->
  single_escape e = Some ch ->
  render_with Generated [f +:+ String backslash (String e g)] I
    (CtxObject props)
  = Ok (f +:+ String ch g)
  /\ render_with Fallback [f +:+ String backslash (String e g)] I
       (CtxObject props)
     = Ok (f +:+ String backslash (String e g)).
Proof.
  intros Hf Hg He. split.
  - destruct (generated_single (f +:+ String backslash (String e g))
                (f +:+ String ch g) I)
      as (ev & Hev & Hc).
    + rewrite escape_app.
      change (escapeCharactersRegExp_replace (String backslash (String e g)))
        with (String backslash (escapeCharactersRegExp_replace (String e g))).
      rewrite (escape_letter_not_escaped e ch g He), append_assoc.
      change (String backslash (String e (escapeCharactersRegExp_replace g))
              +:+ String backtick "}")
        with (String backslash
                (String e (escapeCharactersRegExp_replace g
                           +:+ String backtick "}"))).
      rewrite (lex_escaped _ _ Hf), (lex_escape_letter e ch _ He),
        (lex_escaped _ _ Hg).
      replace (lex_chars InTemplate (String backtick "}"))
        with (LexEnd "" "}") by reflexivity.
      cbn [pushes push]. now rewrite append_nil_r.
    + unfold render_with, bareTemplate. rewrite Hev. cbn [bind].
      now rewrite Hc.
  - unfold render_with, bareTemplate, bareTemplate_fallback. cbn [bind].
    rewrite fallback_evaluator_evaluation. reflexivity.
Qed.

Lemma escape_letter_example :
  render_with Generated ["name:\value"] [] empty_object
  = Ok ("name:" +:+ String "011" "alue")
  /\ render_with Fallback ["name:\value"] [] empty_object
     = Ok "name:\value".
Proof.
  exact (escape_letter_is_cooked "name:" "alue" "v" "011" [] ∅
           eq_refl eq_refl eq_refl).
Defined.

(** X23. Key substitution between two fragments, on an object context:
    for every string key and every integer key of magnitude at most
    [2^53 - 1], the evaluator inserts between the two fragments the string
    coercion of the value the context holds under the key, and nothing
    when that value is [undefined] (missing) or [null].  Under the
    generated strategy this is stated for fragments without backslash and
    carriage return; under the fallback strategy for all fragments. *)
Theorem key_substitution_contributes (s : strategy) (pre post : string)
    (props : gmap string value) :
  fragment_ok s pre -> fragment_ok s post ->
  (forall k : string,
     render_with s [pre; post] [JV (VStr k)] (CtxObject props)
     = let! c := key_substitution (lookup props k) in
       Ok (pre +:+ c +:+ post))
  /\ (forall n : Z, safe_integer n ->
        render_with s [pre; post] [JV (VNum n)] (CtxObject props)
        = let! c := key_substitution (lookup props (number_to_string n)) in
          Ok (pre +:+ c +:+ post)).
Proof.
  intros Hpre Hpost. split.
  - intros k. now apply key_substitution_general.
  - intros n Hn. now apply key_substitution_general.
Qed.

(** [["a ", " b"]] with item ["x"], applied to an object without
    property [x], to [{x: null}] and to [{x: "VAL"}], under both
    strategies. *)
Lemma key_substitution_examples :
  (render_with Generated ["a "; " b"] [JV (VStr "x")] (CtxObject ∅)
   = Ok "a  b"
   /\ render_with Generated ["a "; " b"] [JV (VStr "x")]
        (CtxObject {[ "x" := VNull ]}) = Ok "a  b"
   /\ render_with Generated ["a "; " b"] [JV (VStr "x")]
        (CtxObject {[ "x" := VStr "VAL" ]}) = Ok "a VAL b")
  /\ (render_with Fallback ["a "; " b"] [JV (VStr "x")] (CtxObject ∅)
      = Ok "a  b"
      /\ render_with Fallback ["a "; " b"] [JV (VStr "x")]
           (CtxObject {[ "x" := VNull ]}) = Ok "a  b"
      /\ render_with Fallback ["a "; " b"] [JV (VStr "x")]
           (CtxObject {[ "x" := VStr "VAL" ]}) = Ok "a VAL b")
  /\ render_with Generated ["item "; "!"] [JV (VNum 0)]
       (CtxObject {[ "0" := VNum 42 ]}) = Ok "item 42!".
Proof.
  split; [split; [|split] | split; [split; [|split] |]].
  - exact (proj1 (key_substitution_contributes Generated "a " " b" ∅
                    eq_refl eq_refl) "x").
  - exact (proj1 (key_substitution_contributes Generated "a " " b"
                    {[ "x" := VNull ]} eq_refl eq_refl) "x").
  - exact (proj1 (key_substitution_contributes Generated "a " " b"
                    {[ "x" := VStr "VAL" ]} eq_refl eq_refl) "x").
  - exact (proj1 (key_substitution_contributes Fallback "a " " b" ∅
                    Logic.I Logic.I) "x").
  - exact (proj1 (key_substitution_contributes Fallback "a " " b"
                    {[ "x" := VNull ]} Logic.I Logic.I) "x").
  - exact (proj1 (key_substitution_contributes Fallback "a " " b"
                    {[ "x" := VStr "VAL" ]} Logic.I Logic.I) "x").
  - refine (proj2 (key_substitution_contributes Generated "item " "!"
                    {[ "0" := VNum 42 ]} eq_refl eq_refl) 0%Z _).
    unfold safe_integer. vm_compute. discriminate.
Defined.
